(** * Task-lease scheduler of the orchestrator (src/Orchestrator.py)

    A shallow embedding of the in-memory scheduler: the task pool [tasks],
    the worker registry [workers], the four protocol handlers
    ([register_worker], [get_assignment], [acknowledge_assignment],
    [update_status]) and the bodies of the two background loops
    ([timeout_checker], [shutdown_notifier]).

    Every handler runs its whole read-modify-write under [with lock:], so a
    handler is a function from the state before the critical section to the
    state after it, together with the HTTP response.

    Modelling conventions
    - [time.time()] readings are handler inputs (integers, seconds); a handler
      that reads the clock twice takes two readings, in program order.
    - A Python dict used as the registry keeps insertion order, and
      [timeout_checker] walks it in that order: the registry is an
      association list.
    - Python truthiness is written out: [None], [0] and the empty list are
      falsy; a worker dict and an assignment dict always hold keys, so they
      are truthy.
    - Strings are Rocq strings; [str.lower()] is modelled on ASCII letters.
    - [log_message] keeps the message; the strftime prefix is display only
      and left out. *)

From Stdlib Require Import ZArith List String Ascii Bool Lia Permutation Arith.
Import ListNotations.

Local Open Scope string_scope.
Local Open Scope Z_scope.
Local Open Scope list_scope.

(** ** Python primitives used by the handlers *)

Module Py.

(** [l[:n]] for an integer [n]: a negative stop counts from the end. *)
Definition stop_index {A : Type} (n : Z) (l : list A) : nat :=
  if n <? 0 then Z.to_nat (Z.max 0 (Z.of_nat (List.length l) + n))
  else Z.to_nat n.

Definition slice_to {A : Type} (n : Z) (l : list A) : list A :=
  firstn (stop_index n l) l.

(** [del l[:n]]: what is left of [l]. *)
Definition del_to {A : Type} (n : Z) (l : list A) : list A :=
  skipn (stop_index n l) l.

(** [bool(l)] for a list. *)
Definition truthy_list {A : Type} (l : list A) : bool :=
  match l with [] => false | _ :: _ => true end.

(** [bool(x)] for [x] either [None] or a number. *)
Definition truthy_num (x : option Z) : bool :=
  match x with None => false | Some t => negb (t =? 0) end.

(** [c.lower()] on one ASCII character. *)
Definition lower_ascii (c : ascii) : ascii :=
  let n := nat_of_ascii c in
  if (65 <=? n)%nat && (n <=? 90)%nat then ascii_of_nat (n + 32) else c.

(** [s.lower()]. *)
Fixpoint lower (s : string) : string :=
  match s with
  | EmptyString => EmptyString
  | String c r => String (lower_ascii c) (lower r)
  end.

(** [str(n)] for a natural number (the [len(...)] of an f-string). *)
Definition digit (n : nat) : ascii := ascii_of_nat (48 + n).

Fixpoint str_nat_aux (fuel n : nat) (acc : string) : string :=
  match fuel with
  | O => acc
  | S fuel' =>
      let acc' := String (digit (n mod 10)) acc in
      match (n / 10)%nat with
      | O => acc'
      | q => str_nat_aux fuel' q acc'
      end
  end.

Definition str_nat (n : nat) : string := str_nat_aux (S n) n EmptyString.

End Py.

(** ** Data model *)

Definition task := string.
Definition worker_id := string.

(** The JSON payloads the scheduler stores without looking inside. *)
Definition payload := string.

(** Configuration read at start-up (module-level constants). *)
Record Config := mkConfig {
  BATCH_SIZE : Z;
  ACK_TIMEOUT : Z;
  PROCESSING_TIMEOUT : Z;
  INPUT_BUCKET : string;
  INPUT_PREFIX : string;
  OUTPUT_BUCKET : string;
  OUTPUT_PREFIX : string
}.

(** The three dicts [get_assignment] can build. *)
Inductive Assignment : Type :=
| ShutdownDirective
    (* {'shutdown': True, 'message': 'All tasks completed. Please shutdown.'} *)
| Batch (file_names : list task)
        (input_bucket input_prefix output_bucket output_prefix : string)
| NoTasksRemaining (input_bucket output_bucket output_prefix : string).
    (* 'file_names': [], 'message': 'No tasks remaining' *)

(** [assignment.get('file_names', [])]. *)
Definition get_file_names (a : Assignment) : list task :=
  match a with
  | ShutdownDirective => []
  | Batch fs _ _ _ _ => fs
  | NoTasksRemaining _ _ _ => []
  end.

(** The ['details'] value of a history event. *)
Inductive Details : Type :=
| DetailsPayload (p : payload)         (* what the caller sent *)
| DetailsAssignment (a : Assignment)   (* the assignment dict *)
| DetailsEmpty                         (* {} *)
| DetailsElapsed (elapsed : Z).        (* {'elapsed': ...} *)

Record HistoryEvent := mkEvent {
  ev_status : string;
  ev_details : Details;
  ev_timestamp : Z
}.

(** One value of the [workers] dict. *)
Record Worker := mkWorker {
  status : string;
  details : payload;
  assignment : option Assignment;
  assignment_timestamp : option Z;
  processing_start : option Z;
  history : list HistoryEvent
}.

(** The process-wide stores guarded by [lock]. *)
Record State := mkState {
  tasks : list task;
  workers : list (worker_id * Worker);
  app_logs : list string
}.

(** HTTP responses: the JSON body and the status code. *)
Inductive Response : Type :=
| RespError (code : Z) (error : string)
| RespRegistered (wid : worker_id)        (* 200 *)
| RespAssignment (a : Assignment)         (* 200 *)
| RespMessage (message : string).         (* 200 *)

(** The JSON body of a status report; a missing key is [None]. *)
Record StatusRequest := mkStatusRequest {
  req_status : option string;
  req_details : option payload
}.

(** ** The registry as an insertion-ordered dict *)

(** [workers.get(wid)]. *)
Fixpoint dict_get (wid : worker_id) (ws : list (worker_id * Worker))
  : option Worker :=
  match ws with
  | [] => None
  | (k, w) :: rest => if String.eqb k wid then Some w else dict_get wid rest
  end.

(** [workers[wid] = w]: an existing key keeps its place, a new one goes last. *)
Fixpoint dict_set (wid : worker_id) (w : Worker) (ws : list (worker_id * Worker))
  : list (worker_id * Worker) :=
  match ws with
  | [] => [(wid, w)]
  | (k, w0) :: rest =>
      if String.eqb k wid then (k, w) :: rest
      else (k, w0) :: dict_set wid w rest
  end.

(** [bool(worker.get('assignment'))]: each assignment dict has keys. *)
Definition has_assignment (w : Worker) : bool :=
  match assignment w with Some _ => true | None => false end.

(** [log_message(message)]. *)
Definition log_message (message : string) (logs : list string) : list string :=
  logs ++ [message].

(** [all_tasks_completed()]. *)
Definition all_tasks_completed (pool : list task) : bool :=
  Nat.eqb (List.length pool) 0.

(** ** The protocol handlers *)

Section Handlers.

Variable cfg : Config.

(** [register_worker]: [worker_id] is the fresh [uuid.uuid4()] string. *)
Definition register_worker (wid : worker_id) (worker_data : payload) (now : Z)
    (st : State) : State * Response :=
  let w := {| status := "idle";
              details := worker_data;
              assignment := None;
              assignment_timestamp := None;
              processing_start := None;
              history := [mkEvent "registered" (DetailsPayload worker_data) now] |} in
  (mkState (tasks st) (dict_set wid w (workers st)) (app_logs st),
   RespRegistered wid).

(** [get_assignment]: [t1], [t2] are the two clock readings of the batch
    branch; the shutdown branch reads the clock once. *)
Definition get_assignment (wid : worker_id) (t1 t2 : Z) (st : State)
  : State * Response :=
  match dict_get wid (workers st) with
  | None => (st, RespError 404 "Worker not registered")
  | Some worker =>
      match assignment worker with
      | Some a => (st, RespAssignment a)
      | None =>
          if all_tasks_completed (tasks st) then
            let shutdown_assignment := ShutdownDirective in
            let worker' :=
              {| status := "shutdown";
                 details := details worker;
                 assignment := Some shutdown_assignment;
                 assignment_timestamp := assignment_timestamp worker;
                 processing_start := processing_start worker;
                 history := history worker ++
                   [mkEvent "shutdown" (DetailsAssignment shutdown_assignment) t1] |} in
            (mkState (tasks st) (dict_set wid worker' (workers st)) (app_logs st),
             RespAssignment shutdown_assignment)
          else
            let '(a, pool') :=
              if Py.truthy_list (tasks st) then
                (Batch (Py.slice_to (BATCH_SIZE cfg) (tasks st))
                       (INPUT_BUCKET cfg) (INPUT_PREFIX cfg)
                       (OUTPUT_BUCKET cfg) (OUTPUT_PREFIX cfg),
                 Py.del_to (BATCH_SIZE cfg) (tasks st))
              else
                (NoTasksRemaining (INPUT_BUCKET cfg) (OUTPUT_BUCKET cfg)
                                  (OUTPUT_PREFIX cfg),
                 tasks st) in
            let worker' :=
              {| status := "waiting_ack";
                 details := details worker;
                 assignment := Some a;
                 assignment_timestamp := Some t1;
                 processing_start := processing_start worker;
                 history := history worker ++
                   [mkEvent "assignment_assigned" (DetailsAssignment a) t2] |} in
            (mkState pool' (dict_set wid worker' (workers st)) (app_logs st),
             RespAssignment a)
      end
  end.

(** [acknowledge_assignment]: [t1] is stored as [processing_start], [t2] is
    the timestamp of the history event. *)
Definition acknowledge_assignment (wid : worker_id) (t1 t2 : Z) (st : State)
  : State * Response :=
  match dict_get wid (workers st) with
  | None => (st, RespError 404 "Worker not registered")
  | Some worker =>
      if negb (has_assignment worker) then
        (st, RespError 400 "No assignment pending")
      else
        let worker' :=
          {| status := "processing";
             details := details worker;
             assignment := assignment worker;
             assignment_timestamp := None;
             processing_start := Some t1;
             history := history worker ++ [mkEvent "processing" DetailsEmpty t2] |} in
        (mkState (tasks st) (dict_set wid worker' (workers st)) (app_logs st),
         RespMessage "Assignment acknowledged and processing started")
  end.

(** [request.json.get('status', '').lower()]. *)
Definition status_of_request (req : StatusRequest) : string :=
  Py.lower (match req_status req with Some s => s | None => EmptyString end).

(** [request.json.get('details', {})]. *)
Definition details_of_request (req : StatusRequest) : Details :=
  match req_details req with Some p => DetailsPayload p | None => DetailsEmpty end.

(** The worker record with its assignment and both timestamps cleared. *)
Definition released (worker : Worker) (new_status : string) (ev : HistoryEvent)
  : Worker :=
  {| status := new_status;
     details := details worker;
     assignment := None;
     assignment_timestamp := None;
     processing_start := None;
     history := history worker ++ [ev] |}.

(** The worker record with only status and history touched. *)
Definition restatus (worker : Worker) (new_status : string) (ev : HistoryEvent)
  : Worker :=
  {| status := new_status;
     details := details worker;
     assignment := assignment worker;
     assignment_timestamp := assignment_timestamp worker;
     processing_start := processing_start worker;
     history := history worker ++ [ev] |}.

(** [update_status]. *)
Definition update_status (wid : worker_id) (req : StatusRequest) (now : Z)
    (st : State) : State * Response :=
  let status_update := status_of_request req in
  let dets := details_of_request req in
  match dict_get wid (workers st) with
  | None => (st, RespError 404 "Worker not registered")
  | Some worker =>
      let ok := RespMessage "Status updated successfully" in
      match assignment worker with
      | Some current_assignment =>
          if String.eqb status_update "completed" then
            (mkState (tasks st)
               (dict_set wid (released worker "idle" (mkEvent "completed" dets now))
                  (workers st))
               (app_logs st), ok)
          else if String.eqb status_update "failed" then
            (mkState (tasks st ++ get_file_names current_assignment)
               (dict_set wid (released worker "failed" (mkEvent "failed" dets now))
                  (workers st))
               (log_message
                  (String.append "Assignment failed to process on "
                     (String.append wid ", task returned to pool"))
                  (app_logs st)), ok)
          else if String.eqb status_update "processing" then
            (mkState (tasks st)
               (dict_set wid (restatus worker "processing" (mkEvent "processing" dets now))
                  (workers st))
               (app_logs st), ok)
          else if String.eqb status_update "shutting-down" then
            (mkState (tasks st)
               (dict_set wid
                  (released worker "shutting-down" (mkEvent "shutting-down" dets now))
                  (workers st))
               (app_logs st), ok)
          else
            (mkState (tasks st)
               (dict_set wid (restatus worker status_update (mkEvent status_update dets now))
                  (workers st))
               (app_logs st), ok)
      | None =>
          if String.eqb status_update "shutting-down" then
            (mkState (tasks st)
               (dict_set wid
                  (restatus worker "shutting-down" (mkEvent "shutting-down" dets now))
                  (workers st))
               (app_logs st), ok)
          else
            (mkState (tasks st)
               (dict_set wid
                  (restatus worker "unavailable" (mkEvent status_update dets now))
                  (workers st))
               (log_message (String.append "Failed to access worker " wid)
                  (app_logs st)), ok)
      end
  end.

(** ** The timeout sweep ([timeout_checker]) *)

(** The state one loop iteration works on: the worker dict under the cursor,
    the pool and the log. *)
Definition Cursor : Type := (Worker * list task * list string)%type.

(** The first [if] of the loop body.  The boolean is [true] when the body
    raised: [worker.get('assignment', {})] is [None] for a cleared
    assignment, and [None.get] raises before anything is written. *)
Definition check_ack_timeout (now : Z) (wid : worker_id) (c : Cursor)
  : Cursor * bool :=
  let '(worker, pool, logs) := c in
  if String.eqb (status worker) "waiting_ack"
     && Py.truthy_num (assignment_timestamp worker) then
    match assignment_timestamp worker with
    | None => (c, false)
    | Some ts =>
        let elapsed_ack := now - ts in
        if elapsed_ack >? ACK_TIMEOUT cfg then
          match assignment worker with
          | None => (c, true)
          | Some a =>
              let file_batch := get_file_names a in
              ({| status := "unavailable";
                  details := details worker;
                  assignment := None;
                  assignment_timestamp := None;
                  processing_start := processing_start worker;
                  history := history worker ++
                    [mkEvent "ack_timeout" (DetailsElapsed elapsed_ack) now] |},
               pool ++ file_batch,
               log_message
                 (String.append "Worker "
                    (String.append wid
                       (String.append " timed out waiting for ack. Returned "
                          (String.append (Py.str_nat (List.length file_batch))
                             " files to pool."))))
                 logs,
               false)
          end
        else (c, false)
    end
  else (c, false).

(** The second [if] of the loop body. *)
Definition check_processing_timeout (now : Z) (wid : worker_id) (c : Cursor)
  : Cursor * bool :=
  let '(worker, pool, logs) := c in
  if String.eqb (status worker) "processing"
     && Py.truthy_num (processing_start worker) then
    match processing_start worker with
    | None => (c, false)
    | Some ps =>
        let elapsed_processing := now - ps in
        if elapsed_processing >? PROCESSING_TIMEOUT cfg then
          match assignment worker with
          | None => (c, true)
          | Some a =>
              let file_batch := get_file_names a in
              ({| status := "unavailable";
                  details := details worker;
                  assignment := None;
                  assignment_timestamp := assignment_timestamp worker;
                  processing_start := None;
                  history := history worker ++
                    [mkEvent "processing_timeout"
                       (DetailsElapsed elapsed_processing) now] |},
               pool ++ file_batch,
               log_message
                 (String.append "Worker "
                    (String.append wid
                       (String.append " timed out during processing. Returned "
                          (String.append (Py.str_nat (List.length file_batch))
                             " files to pool."))))
                 logs,
               false)
          end
        else (c, false)
    end
  else (c, false).

(** One iteration of [for worker_id, worker in list(workers.items())]. *)
Definition timeout_worker (now : Z) (wid : worker_id) (c : Cursor)
  : Cursor * bool :=
  let '(c1, raised) := check_ack_timeout now wid c in
  if raised then (c1, true) else check_processing_timeout now wid c1.

(** The [for] loop: each worker dict is updated in place, in registry order;
    an exception leaves the rest of the registry untouched. *)
Fixpoint timeout_items (now : Z) (items : list (worker_id * Worker))
    (pool : list task) (logs : list string)
  : list (worker_id * Worker) * list task * list string * bool :=
  match items with
  | [] => ([], pool, logs, false)
  | (wid, worker) :: rest =>
      let '(worker', pool', logs', raised) :=
        timeout_worker now wid (worker, pool, logs) in
      if raised then ((wid, worker') :: rest, pool', logs', true)
      else
        let '(rest', pool'', logs'', raised') :=
          timeout_items now rest pool' logs' in
        ((wid, worker') :: rest', pool'', logs'', raised')
  end.

(** One pass of the [while True] loop of [timeout_checker], for the clock
    reading [now]; the boolean tells whether the thread died in this pass. *)
Definition timeout_checker (now : Z) (st : State) : State * bool :=
  let '(ws, pool, logs, raised) :=
    timeout_items now (workers st) (tasks st) (app_logs st) in
  (mkState pool ws logs, raised).

End Handlers.

(** ** The drain check ([shutdown_notifier]) *)

(** What the background threads do to the outside world. *)
Inductive Effect : Type :=
| Print (line : string)
| SendEmailNotification
| ShutdownInstance.

(** [workers and all(worker.get('status') == 'shutting-down' ...)]. *)
Definition all_shutting_down (ws : list (worker_id * Worker)) : bool :=
  Py.truthy_list ws
  && forallb (fun kw => String.eqb (status (snd kw)) "shutting-down") ws.

(** One pass of the [while True] loop of [shutdown_notifier]: the effects of
    the pass and whether the loop goes on. [shutdown_instance] ends in
    [sys.exit(0)], so the thread never takes another pass. *)
Definition shutdown_notifier (ws : list (worker_id * Worker))
  : list Effect * bool :=
  if all_shutting_down ws then
    ([Print "All workers are shutting down."; SendEmailNotification;
      ShutdownInstance], false)
  else ([], true).

(** ** The whole scheduler as a transition system *)

(** One atomic step: a served request or one pass of a background loop. *)
Inductive Event : Type :=
| Register (wid : worker_id) (worker_data : payload) (now : Z)
| GetAssignment (wid : worker_id) (t1 t2 : Z)
| Acknowledge (wid : worker_id) (t1 t2 : Z)
| ReportStatus (wid : worker_id) (req : StatusRequest) (now : Z)
| TimeoutPass (now : Z)
| DrainPass.

Record System := mkSystem {
  sys_state : State;
  checker_alive : bool;     (* the [timeout_checker] thread is running *)
  notifier_alive : bool;    (* the [shutdown_notifier] thread is running *)
  effects : list Effect
}.

(** The scheduler right after start-up: the discovered tasks, no worker. *)
Definition initial (discovered : list task) : System :=
  mkSystem (mkState discovered [] []) true true [].

Definition with_state (sys : System) (st : State) : System :=
  mkSystem st (checker_alive sys) (notifier_alive sys) (effects sys).

Definition step (cfg : Config) (sys : System) (e : Event) : System :=
  match e with
  | Register wid d now =>
      with_state sys (fst (register_worker wid d now (sys_state sys)))
  | GetAssignment wid t1 t2 =>
      with_state sys (fst (get_assignment cfg wid t1 t2 (sys_state sys)))
  | Acknowledge wid t1 t2 =>
      with_state sys (fst (acknowledge_assignment wid t1 t2 (sys_state sys)))
  | ReportStatus wid req now =>
      with_state sys (fst (update_status wid req now (sys_state sys)))
  | TimeoutPass now =>
      if checker_alive sys then
        let '(st', raised) := timeout_checker cfg now (sys_state sys) in
        mkSystem st' (negb raised) (notifier_alive sys) (effects sys)
      else sys
  | DrainPass =>
      if notifier_alive sys then
        let '(effs, go_on) := shutdown_notifier (workers (sys_state sys)) in
        mkSystem (sys_state sys) (checker_alive sys) go_on (effects sys ++ effs)
      else sys
  end.

Definition run (cfg : Config) (sys : System) (es : list Event) : System :=
  fold_left (step cfg) es sys.

(** The [time.time()] readings an event carries. *)
Definition clock_readings (e : Event) : list Z :=
  match e with
  | Register _ _ now => [now]
  | GetAssignment _ t1 t2 => [t1; t2]
  | Acknowledge _ t1 t2 => [t1; t2]
  | ReportStatus _ _ now => [now]
  | TimeoutPass now => [now]
  | DrainPass => []
  end.

(** What the environment guarantees about an event: the clock reads seconds
    since the epoch, a positive number, and [uuid.uuid4()] hands out an
    identifier no registered worker has. *)
Definition admissible (sys : System) (e : Event) : Prop :=
  Forall (fun t => 0 < t) (clock_readings e) /\
  match e with
  | Register wid _ _ => dict_get wid (workers (sys_state sys)) = None
  | _ => True
  end.

(** The states the scheduler can be in after start-up. *)
Inductive reachable (cfg : Config) (discovered : list task) : System -> Prop :=
| reachable_initial : reachable cfg discovered (initial discovered)
| reachable_step : forall sys e,
    reachable cfg discovered sys ->
    admissible sys e ->
    reachable cfg discovered (step cfg sys e).

(** The two protocol errors. *)
Definition NotRegistered : Response := RespError 404 "Worker not registered".
Definition NoAssignmentPending : Response := RespError 400 "No assignment pending".


(** ** Concrete data used by the examples *)

Definition cfg0 : Config :=
  mkConfig 10 60 600 "in-bucket" "inputs/" "out-bucket" "processed".

Definition batch0 : Assignment :=
  Batch ["a.jpg"; "b.jpg"] "in-bucket" "inputs/" "out-bucket" "processed".

(** A worker that was handed [batch0] at time 100 and has not acknowledged. *)
Definition leased_worker : Worker :=
  {| status := "waiting_ack";
     details := "{}";
     assignment := Some batch0;
     assignment_timestamp := Some 100;
     processing_start := None;
     history := [mkEvent "registered" (DetailsPayload "{}") 90;
                 mkEvent "assignment_assigned" (DetailsAssignment batch0) 100] |}.

(** A worker right after registration. *)
Definition idle_worker : Worker :=
  {| status := "idle";
     details := "{}";
     assignment := None;
     assignment_timestamp := None;
     processing_start := None;
     history := [mkEvent "registered" (DetailsPayload "{}") 95] |}.

Definition st0 : State :=
  mkState ["c.jpg"; "d.jpg"; "e.jpg"]
          [("w1", leased_worker); ("w2", idle_worker)]
          [].

(** ** Scenario A of the spec: 25 discovered tasks, batches of 10 *)

Definition pool25 : list task :=
  ["t1"; "t2"; "t3"; "t4"; "t5"; "t6"; "t7"; "t8"; "t9"; "t10";
   "t11"; "t12"; "t13"; "t14"; "t15"; "t16"; "t17"; "t18"; "t19"; "t20";
   "t21"; "t22"; "t23"; "t24"; "t25"].

(** Two workers register, nothing else has happened. *)
Definition scenario_A_start : State :=
  fst (register_worker "w2" "{}" 2
         (fst (register_worker "w1" "{}" 1 (mkState pool25 [] [])))).

(** The batch a worker is handed under [cfg0]. *)
Definition batch_of (files : list task) : Assignment :=
  Batch files (INPUT_BUCKET cfg0) (INPUT_PREFIX cfg0)
        (OUTPUT_BUCKET cfg0) (OUTPUT_PREFIX cfg0).

(** ** Well-formed worker records *)

(** What every record in a running scheduler satisfies: a timestamp is a
    clock reading (seconds since the epoch, so positive), an ack deadline is
    only set on a worker that holds an assignment and has not acknowledged,
    and a processing start is only set on a worker that holds one. *)
Definition sound_worker (w : Worker) : Prop :=
  (forall ts, assignment_timestamp w = Some ts ->
              0 < ts /\ assignment w <> None /\ processing_start w = None) /\
  (forall ps, processing_start w = Some ps ->
              0 < ps /\ assignment w <> None).

(** The record [timeout_checker] leaves behind after an ack timeout. *)
Definition ack_timed_out (w : Worker) (now ts : Z) : Worker :=
  {| status := "unavailable";
     details := details w;
     assignment := None;
     assignment_timestamp := None;
     processing_start := processing_start w;
     history := history w
                ++ [mkEvent "ack_timeout" (DetailsElapsed (now - ts)) now] |}.

(** The record [timeout_checker] leaves behind after a processing timeout. *)
Definition processing_timed_out (w : Worker) (now ps : Z) : Worker :=
  {| status := "unavailable";
     details := details w;
     assignment := None;
     assignment_timestamp := assignment_timestamp w;
     processing_start := None;
     history := history w
                ++ [mkEvent "processing_timeout" (DetailsElapsed (now - ps)) now] |}.

(** What one loop iteration of the sweep does to a worker [w], giving [w']
    and the files [fs] it puts back: the postcondition of section 4.4. *)
Definition sweep_post (cfg : Config) (now : Z) (w w' : Worker) (fs : list task)
  : Prop :=
  (forall ts a,
      status w = "waiting_ack" -> assignment_timestamp w = Some ts ->
      now - ts > ACK_TIMEOUT cfg -> assignment w = Some a ->
      w' = ack_timed_out w now ts /\ fs = get_file_names a) /\
  (forall ps a,
      status w = "processing" -> processing_start w = Some ps ->
      now - ps > PROCESSING_TIMEOUT cfg -> assignment w = Some a ->
      w' = processing_timed_out w now ps /\ fs = get_file_names a) /\
  (forall ts,
      status w = "waiting_ack" -> assignment_timestamp w = Some ts ->
      now - ts <= ACK_TIMEOUT cfg -> w' = w /\ fs = []) /\
  (forall ps,
      status w = "processing" -> processing_start w = Some ps ->
      now - ps <= PROCESSING_TIMEOUT cfg -> w' = w /\ fs = []).

(** ** Invariants of the running scheduler *)

Definition sound_workers (ws : list (worker_id * Worker)) : Prop :=
  Forall (fun kw => sound_worker (snd kw)) ws.

(** The sweep thread is running and every record is well formed. *)
Definition scheduler_inv (sys : System) : Prop :=
  checker_alive sys = true /\ sound_workers (workers (sys_state sys)).

(** The assignment is not the one built by the [else] of [if tasks:]. *)
Definition not_no_tasks (a : option Assignment) : Prop :=
  match a with
  | Some (NoTasksRemaining _ _ _) => False
  | _ => True
  end.

(** All events of a run are admissible where they happen. *)
Fixpoint admissible_run (cfg : Config) (sys : System) (es : list Event) : Prop :=
  match es with
  | [] => True
  | e :: rest => admissible sys e /\ admissible_run cfg (step cfg sys e) rest
  end.

(** ** A short run used by the examples: one worker, leased at time 100 *)

Definition lease_events : list Event :=
  [Register "w1" "{}" 90; GetAssignment "w1" 100 100].

Definition leased_system : System :=
  run cfg0 (initial ["a.jpg"; "b.jpg"; "c.jpg"]) lease_events.

(** ** Drain: the words of section 4.5 *)

(** The registry is non-empty and every record has status shutting-down. *)
Definition drained (ws : list (worker_id * Worker)) : Prop :=
  ws <> [] /\ forall wid w, In (wid, w) ws -> status w = "shutting-down".

(** What the drain check does when it fires: the console line, the
    notification, the teardown. *)
Definition terminal_actions : list Effect :=
  [Print "All workers are shutting down."; SendEmailNotification; ShutdownInstance].

(** A worker that has reported shutting-down. *)
Definition gone_worker : Worker :=
  {| status := "shutting-down";
     details := "{}";
     assignment := None;
     assignment_timestamp := None;
     processing_start := None;
     history := [mkEvent "registered" (DetailsPayload "{}") 90;
                 mkEvent "shutting-down" DetailsEmpty 120] |}.

Definition drained_system : System :=
  mkSystem (mkState [] [("w1", gone_worker)] []) true true [].

(** ** Schedules of the sweep thread *)





(** The worker of [leased_system] acknowledges at 110 and then only polls;
    sweep passes are taken at 600 and 1100. *)
Definition stalled_events : list Event :=
  [TimeoutPass 600; GetAssignment "w1" 700 700; TimeoutPass 1100; DrainPass].

(** ** Accounting for the discovered tasks *)

(** The tasks of a worker's current assignment. *)
Definition files_held (w : Worker) : list task :=
  match assignment w with
  | Some a => get_file_names a
  | None => []
  end.

(** All workers' current assignment contents, in registry order. *)
Definition leased (ws : list (worker_id * Worker)) : list task :=
  flat_map (fun kw => files_held (snd kw)) ws.

(** The tasks a status report takes out of a worker's hands when the
    reported status is [s]; the scheduler itself keeps no such record. *)
Definition report_clears (s : string) (sys : System) (e : Event) : list task :=
  match e with
  | ReportStatus wid req _ =>
      match dict_get wid (workers (sys_state sys)) with
      | Some w => if String.eqb (status_of_request req) s then files_held w else []
      | None => []
      end
  | _ => []
  end.

(** The tasks cleared by reports of status [s] along a run. *)
Fixpoint cleared_by (s : string) (cfg : Config) (sys : System) (es : list Event)
  : list task :=
  match es with
  | [] => []
  | e :: rest => report_clears s sys e ++ cleared_by s cfg (step cfg sys e) rest
  end.

(** The tasks marked completed so far. *)
Definition completed_so_far := cleared_by "completed".

(** The tasks a worker held when it reported shutting-down. *)
Definition dropped_so_far := cleared_by "shutting-down".

(** Pool contents and all workers' assignment contents. *)
Definition in_flight (sys : System) : list task :=
  tasks (sys_state sys) ++ leased (workers (sys_state sys)).

(** The three collections of the conservation invariant after the run [es]
    from start-up: pool, assignments, completed. *)
Definition accounted (cfg : Config) (discovered : list task) (es : list Event)
  : list task :=
  in_flight (run cfg (initial discovered) es)
  ++ completed_so_far cfg (initial discovered) es.

(** A worker is handed the whole pool, acknowledges, and is then told to go
    away (SIGTERM): its signal handler reports shutting-down. *)
Definition interrupted_events : list Event :=
  [Register "w1" "{}" 90;
   GetAssignment "w1" 100 100;
   Acknowledge "w1" 110 110;
   ReportStatus "w1" (mkStatusRequest (Some "shutting-down") (Some "{}")) 120].

(** How often the task [x] occurs in [l]: lists are compared as multisets. *)
Definition cnt (x : task) (l : list task) : nat := count_occ string_dec l x.

(** ** Relations between a record and a later version of it *)

(** The later record keeps the registration payload and every history
    event of the earlier one, in place. *)
Definition extends (w w' : Worker) : Prop :=
  details w' = details w /\ exists suffix, history w' = history w ++ suffix.

(** The ids an event adds to the registry. *)
Definition new_ids (sys : System) (e : Event) : list worker_id :=
  match e with
  | Register wid _ _ =>
      match dict_get wid (workers (sys_state sys)) with
      | None => [wid]
      | Some _ => []
      end
  | _ => []
  end.

(** One worker takes a batch, acknowledges, works and reports completed. *)
Definition completed_events : list Event :=
  [Register "w1" "{}" 90;
   GetAssignment "w1" 100 100;
   Acknowledge "w1" 110 110;
   ReportStatus "w1" (mkStatusRequest (Some "processing") (Some "{}")) 111;
   TimeoutPass 115;
   ReportStatus "w1" (mkStatusRequest (Some "completed") (Some "{}")) 120;
   GetAssignment "w1" 130 130].

(** Neither [if] of the sweep's loop body applies to the record. *)
Definition sweep_exempt (w : Worker) : bool :=
  negb (String.eqb (status w) "waiting_ack"
        && Py.truthy_num (assignment_timestamp w))
  && negb (String.eqb (status w) "processing"
           && Py.truthy_num (processing_start w)).


(** The event is not a registration of [wid]. *)
Definition not_register (wid : worker_id) (e : Event) : Prop :=
  match e with
  | Register w _ _ => w <> wid
  | _ => True
  end.

(** The worker of [leased_system] sends the heartbeat without having
    acknowledged. *)
Definition unacked_heartbeat : Event :=
  ReportStatus "w1" (mkStatusRequest (Some "processing") (Some "{}")) 105.


(** ** Python string primitives used at start-up and by the worker *)

Module PyStr.

(** [s.startswith(p)]. *)
Definition startswith (p s : string) : bool := String.prefix p s.

(** [s[n:]] for [n >= 0]. *)
Fixpoint drop (n : nat) (s : string) : string :=
  match n, s with
  | O, _ => s
  | S n', EmptyString => EmptyString
  | S n', String _ r => drop n' r
  end.

(** [s.endswith(p)]. *)
Definition endswith (p s : string) : bool :=
  (String.length p <=? String.length s)%nat
  && String.eqb (drop (String.length s - String.length p) s) p.

(** [sub in s]. *)
Fixpoint contains (sub s : string) : bool :=
  if String.prefix sub s then true
  else match s with
       | EmptyString => false
       | String _ r => contains sub r
       end.

(** [s.split(sep)] for a separator of one character: never the empty list. *)
Fixpoint split (sep : ascii) (s : string) : list string :=
  match s with
  | EmptyString => [EmptyString]
  | String c r =>
      if Ascii.eqb c sep then EmptyString :: split sep r
      else match split sep r with
           | h :: t => String c h :: t
           | [] => [String c EmptyString]
           end
  end.

(** [s.split(sep, 1)] for a separator of one character. *)
Fixpoint split1 (sep : ascii) (s : string) : list string :=
  match s with
  | EmptyString => [EmptyString]
  | String c r =>
      if Ascii.eqb c sep then [EmptyString; r]
      else match split1 sep r with
           | h :: t => String c h :: t
           | [] => [String c EmptyString]
           end
  end.

(** [parts[0]] and [parts[-1]] of a list that is not empty. *)
Definition first (parts : list string) : string := hd EmptyString parts.
Definition final (parts : list string) : string := last parts EmptyString.

(** [os.path.basename(p)]: what follows the last slash. *)
Definition basename (p : string) : string := final (split "/" p).

(** [os.path.join(a, b)] on POSIX. *)
Definition path_join (a b : string) : string :=
  if startswith "/" b then b
  else if (String.length a =? 0)%nat || endswith "/" a then String.append a b
  else String.append a (String.append "/" b).

End PyStr.

(** ** Start-up: discovering the tasks *)

(** [parse_s3_path]. *)
Definition parse_s3_path (s3_path : string) : string * string :=
  let s3_path :=
    if PyStr.startswith "s3://" s3_path
    then PyStr.drop (String.length "s3://") s3_path
    else s3_path in
  let parts := PyStr.split1 "/" s3_path in
  let bucket := PyStr.first parts in
  let prefix := if (1 <? List.length parts)%nat then nth 1 parts EmptyString
                else EmptyString in
  (bucket, prefix).

(** One page of a [list_objects_v2] listing: the keys under ["Contents"],
    or [None] when the page has no such entry. *)
Definition Page : Type := option (list string).

(** [key.split('/')[-1]]. *)
Definition base_name_of (key : string) : string :=
  PyStr.final (PyStr.split "/" key).

(** [base_name.split('.')[0]]. *)
Definition numeric_prefix (base_name : string) : string :=
  PyStr.first (PyStr.split "." base_name).

(** [processed_numbers.add(x)] on a Python set, kept as a duplicate-free
    list. *)
Definition set_add_str (x : string) (s : list string) : list string :=
  if existsb (String.eqb x) s then s else s ++ [x].

(** The inner loop of [list_processed_file_numbers] over one page. *)
Fixpoint processed_in_keys (keys : list string) (processed : list string)
  : list string :=
  match keys with
  | [] => processed
  | key :: rest =>
      let base_name := base_name_of key in
      if (String.length base_name =? 0)%nat then processed_in_keys rest processed
      else
        let num_prefix := numeric_prefix base_name in
        processed_in_keys rest
          (set_add_str num_prefix (set_add_str num_prefix processed))
  end.

(** [list_processed_file_numbers], given the pages the paginator yields for
    the output bucket. *)
Fixpoint processed_in_pages (pages : list Page) (processed : list string)
  : list string :=
  match pages with
  | [] => processed
  | None :: rest => processed_in_pages rest processed
  | Some keys :: rest => processed_in_pages rest (processed_in_keys keys processed)
  end.

Definition list_processed_file_numbers (output_pages : list Page) : list string :=
  processed_in_pages output_pages [].

(** The first loop of [scan_s3_for_tasks] over one page: keys that end
    with a slash or hold no dot are skipped. *)
Fixpoint input_keys (keys : list string) (input_tasks : list task) : list task :=
  match keys with
  | [] => input_tasks
  | key :: rest =>
      if PyStr.endswith "/" key || negb (PyStr.contains "." key)
      then input_keys rest input_tasks
      else input_keys rest (input_tasks ++ [key])
  end.

Fixpoint input_pages_keys (pages : list Page) (input_tasks : list task)
  : list task :=
  match pages with
  | [] => input_tasks
  | None :: rest => input_pages_keys rest input_tasks
  | Some keys :: rest => input_pages_keys rest (input_keys keys input_tasks)
  end.

(** The second loop of [scan_s3_for_tasks]: the filtered tasks and the log. *)
Fixpoint filter_processed (input_tasks : list task) (processed : list string)
    (filtered_tasks : list task) (logs : list string)
  : list task * list string :=
  match input_tasks with
  | [] => (filtered_tasks, logs)
  | t :: rest =>
      let base_name := base_name_of t in
      let numeric_part := numeric_prefix base_name in
      if negb (existsb (String.eqb numeric_part) processed)
      then filter_processed rest processed (filtered_tasks ++ [t]) logs
      else filter_processed rest processed filtered_tasks
             (log_message
                (String.append "Skipping already processed file: " t) logs)
  end.

(** [scan_s3_for_tasks], given the pages of the input listing and of the
    output listing. *)
Definition scan_s3_for_tasks (cfg : Config) (input_pages output_pages : list Page)
    (logs : list string) : list task * list string :=
  let input_tasks := input_pages_keys input_pages [] in
  let logs :=
    log_message
      (String.append "Found "
         (String.append (Py.str_nat (List.length input_tasks))
            (String.append " files in input bucket "
               (String.append (INPUT_BUCKET cfg)
                  (String.append " with prefix '"
                     (String.append (INPUT_PREFIX cfg) "'"))))))
      logs in
  let processed_numbers := list_processed_file_numbers output_pages in
  let logs :=
    log_message
      (String.append "Found "
         (String.append (Py.str_nat (List.length processed_numbers))
            (String.append " processed files in output bucket "
               (OUTPUT_BUCKET cfg))))
      logs in
  filter_processed input_tasks processed_numbers [] logs.

(** All keys of a listing, page after page. *)
Definition listed (pages : list Page) : list string :=
  flat_map (fun p => match p with Some keys => keys | None => [] end) pages.

(** An input key counts as a file: it does not end with a slash and holds
    a dot. *)
Definition is_file_key (key : string) : bool :=
  negb (PyStr.endswith "/" key) && PyStr.contains "." key.

(** Some listed output with a non-empty file name has the same numeric
    prefix as the input key. *)
Definition has_output (outputs : list string) (key : string) : Prop :=
  exists out,
    In out outputs /\ base_name_of out <> EmptyString /\
    numeric_prefix (base_name_of out) = numeric_prefix (base_name_of key).

(** ** The worker agent (src/Worker.py, src/ShellRunner.py)

    The agent's code is I/O around a few decisions.  The outside world is a
    parameter: which shell commands exit with status 0, which transfers
    raise, what [os.walk] lists.  A function returns its Python result
    together with the calls it made to the outside world, in order.  Console
    output ([print]) is left out; requests to the orchestrator are taken to
    arrive. *)

Module Agent.

Local Open Scope string_scope.

(** [subprocess.CalledProcessError], with the text of its [stderr]. *)
Record CalledProcessError := mkCalledProcessError {
  cpe_cmd : string;
  cpe_stderr : string
}.

(** What the agent runs against. *)
Record World := mkWorld {
  (** [subprocess.run(cmd, shell=True, check=True)]: [None] on exit status
      0, otherwise the exception raised. *)
  shell : string -> option CalledProcessError;
  (** [s3_client.download_file(bucket, key, local_path)]: [None] when it
      returns, [Some e] when it raises an exception printing as [e]. *)
  download_file : string -> string -> string -> option string;
  (** [s3_client.upload_file(local_file, bucket, key)], likewise. *)
  upload_file : string -> string -> string -> option string;
  (** [os.walk(LOCAL_OUTPUT_DIR)]: each directory with its files. *)
  walk_output : list (string * list string)
}.

(** The calls made to the outside world. *)
Inductive Action : Type :=
| Run (cmd : string)
| Download (bucket key local_path : string)
| Upload (local_file bucket key : string)
| ClearLocalDirectories
| RemoveLocalDirectories
| Sleep (seconds : Z)
| ShutdownNow.                 (* os.system("sudo shutdown now"); sys.exit(0) *)

(** A Python result or a raised [CalledProcessError]. *)
Inductive Outcome (A : Type) : Type :=
| Returns (a : A)
| Raises (e : CalledProcessError).

Arguments Returns {A} a.
Arguments Raises {A} e.

Definition LOCAL_INPUT_DIR : string := "/tmp/input_files".
Definition LOCAL_OUTPUT_DIR : string := "/tmp/output_files".

(** [subprocess.run(cmd, shell=True, check=True)]. *)
Definition subprocess_run (w : World) (cmd : string)
  : Outcome unit * list Action :=
  match shell w cmd with
  | None => (Returns tt, [Run cmd])
  | Some e => (Raises e, [Run cmd])
  end.

(** [ShellRunner.exec_in_container]: both commands sit in one [try] whose
    [except subprocess.CalledProcessError] only prints. *)
Definition exec_in_container (w : World) (container_name script_name : string)
    (params : list string) : Outcome unit * list Action :=
  let cmd1 := "docker exec " ++ container_name ++ " chmod +x /app/" ++ script_name in
  let cmd2 := fold_left (fun cmd p => cmd ++ " " ++ p) params
                        ("docker exec " ++ container_name ++ " /app/" ++ script_name) in
  let body :=
    match subprocess_run w cmd1 with
    | (Raises e, trace) => (Raises e, trace)
    | (Returns _, trace1) =>
        match subprocess_run w cmd2 with
        | (r, trace2) => (r, (trace1 ++ trace2)%list)
        end
    end in
  match body with
  | (Raises _, trace) => (Returns tt, trace)      (* except: print and go on *)
  | (Returns _, trace) => (Returns tt, trace)
  end.

(** [download_files]. *)
Fixpoint download_files (w : World) (file_names : list string)
    (input_bucket : string) : (bool * string) * list Action :=
  match file_names with
  | [] => ((true, EmptyString), [])
  | key :: rest =>
      let local_path := PyStr.path_join LOCAL_INPUT_DIR (PyStr.basename key) in
      match download_file w input_bucket key local_path with
      | Some e =>
          let error_msg :=
            "Error downloading " ++ key ++ " from bucket " ++ input_bucket
            ++ ": " ++ e in
          ((false, error_msg), [Download input_bucket key local_path])
      | None =>
          let '(result, trace) := download_files w rest input_bucket in
          (result, Download input_bucket key local_path :: trace)
      end
  end.

(** [run_segmentation]. *)
Definition run_segmentation (w : World) : (bool * string) * list Action :=
  match exec_in_container w "rgo_container" "run_segmentation.sh"
          ["/app/Inputs"; "/app/Outputs"] with
  | (Returns _, trace) => ((true, EmptyString), trace)
  | (Raises e, trace) =>
      ((false, "Error running segmentation script: " ++ cpe_stderr e), trace)
  end.

(** The inner loop of [upload_results] over the files of one directory;
    [None] when the loop runs to its end. *)
Fixpoint upload_files (w : World) (root : string) (files : list string)
    (output_bucket output_prefix : string)
  : option (bool * string) * list Action :=
  match files with
  | [] => (None, [])
  | file :: rest =>
      let local_file := PyStr.path_join root file in
      let s3_key := PyStr.path_join output_prefix file in
      match upload_file w local_file output_bucket s3_key with
      | Some e =>
          let error_msg :=
            "Error uploading " ++ local_file ++ " to bucket " ++ output_bucket
            ++ ": " ++ e in
          (Some (false, error_msg), [Upload local_file output_bucket s3_key])
      | None =>
          let '(result, trace) :=
            upload_files w root rest output_bucket output_prefix in
          (result, Upload local_file output_bucket s3_key :: trace)
      end
  end.

(** The outer loop of [upload_results] over the directories [os.walk]
    yields. *)
Fixpoint upload_dirs (w : World) (dirs : list (string * list string))
    (output_bucket output_prefix : string) : (bool * string) * list Action :=
  match dirs with
  | [] => ((true, EmptyString), [])
  | (root, files) :: rest =>
      match upload_files w root files output_bucket output_prefix with
      | (Some result, trace) => (result, trace)
      | (None, trace1) =>
          let '(result, trace2) := upload_dirs w rest output_bucket output_prefix in
          (result, (trace1 ++ trace2)%list)
      end
  end.

(** [upload_results]. *)
Definition upload_results (w : World) (output_bucket output_prefix : string)
  : (bool * string) * list Action :=
  upload_dirs w (walk_output w) output_bucket output_prefix.

(** [process_files]. *)
Definition process_files (w : World) (file_names : list string)
    (input_bucket output_bucket output_prefix : string)
  : (bool * string) * list Action :=
  let '((success, message), trace1) := download_files w file_names input_bucket in
  if negb success then ((false, message), trace1)
  else
    let '((success, message), trace2) := run_segmentation w in
    if negb success then ((false, message), (trace1 ++ trace2)%list)
    else
      let '((success, message), trace3) :=
        upload_results w output_bucket output_prefix in
      if negb success then ((false, message), (trace1 ++ trace2 ++ trace3)%list)
      else ((true, EmptyString),
            (trace1 ++ trace2 ++ trace3 ++ [ClearLocalDirectories])%list).

(** [s.strip()] on ASCII: the characters [str.isspace] accepts are cut off
    both ends. *)
Definition is_space (c : ascii) : bool :=
  let n := nat_of_ascii c in
  ((9 <=? n) && (n <=? 13) || (28 <=? n) && (n <=? 32))%nat.

Fixpoint lstrip_chars (cs : list ascii) : list ascii :=
  match cs with
  | [] => []
  | c :: rest => if is_space c then lstrip_chars rest else cs
  end.

Definition strip (s : string) : string :=
  string_of_list_ascii
    (rev (lstrip_chars (rev (lstrip_chars (list_ascii_of_string s))))).

(** The double quote character, as a string. *)
Definition quote : string := String (ascii_of_nat 34) EmptyString.

(** [World] extended with what a captured command prints. *)
Definition Stdout : Type := string -> string.

(** A sequence of [subprocess.run(..., check=True)] calls inside one [try]:
    the first failing command ends it. *)
Fixpoint run_all (w : World) (cmds : list string) : Outcome unit * list Action :=
  match cmds with
  | [] => (Returns tt, [])
  | cmd :: rest =>
      match subprocess_run w cmd with
      | (Raises e, trace) => (Raises e, trace)
      | (Returns _, trace1) =>
          let '(r, trace2) := run_all w rest in (r, (trace1 ++ trace2)%list)
      end
  end.

(** [ShellRunner.docker_pull_and_mount]; [mount_dict] is the dict as its
    (key, value) pairs in insertion order. *)
Definition docker_pull_and_mount (w : World) (stdout : Stdout)
    (mount_dict : list (string * string)) (container_name image_name : string)
  : bool * list Action :=
  let pull := "docker pull " ++ image_name in
  let ps := "docker ps -aqf " ++ quote ++ "name=" ++ container_name ++ quote in
  let container_id := strip (stdout ps) in
  let cleanup :=
    if negb (String.length container_id =? 0)%nat
    then ["docker stop " ++ container_name; "docker rm " ++ container_name]
    else [] in
  let cmd := fold_left (fun cmd kv => cmd ++ " -v " ++ snd kv ++ ":" ++ fst kv)
                       mount_dict
                       ("docker run --gpus all -d --name " ++ container_name) in
  let cmd := cmd ++ " -it " ++ image_name in
  let body :=
    match run_all w [pull; ps] with
    | (Raises e, trace) => (Raises e, trace)
    | (Returns _, trace1) =>
        let '(r, trace2) := run_all w (cleanup ++ [cmd])%list in
        (r, (trace1 ++ trace2)%list)
    end in
  match body with
  | (Returns _, trace) => (true, trace)
  | (Raises _, trace) => (false, trace)      (* except: print, return False *)
  end.

(** [ShellRunner.stop_docker_container]; the argument lists
    [["docker", "stop", name]] are written as command lines. *)
Definition stop_docker_container (w : World) (container_name : string)
  : bool * list Action :=
  match run_all w ["docker stop " ++ container_name;
                   "docker rm " ++ container_name] with
  | (Returns _, trace) => (true, trace)
  | (Raises _, trace) => (false, trace)
  end.

(** [start_docker_container]. *)
Definition start_docker_container (w : World) (stdout : Stdout)
  : bool * list Action :=
  docker_pull_and_mount w stdout
    [("/app/Inputs", LOCAL_INPUT_DIR); ("/app/Outputs", LOCAL_OUTPUT_DIR)]
    "rgo_container" "rgodocker/rgo_seg:latest".

(** The [details] dicts the agent sends. *)
Inductive Report : Type :=
| Reason (reason : string)                        (* {"reason": ...} *)
| Files (files : list string)                     (* {"files": ...} *)
| ProcessedFiles (files : list string)            (* {"processed_files": ...} *)
| FilesError (files : list string) (error : string)
| Error (error : string).                         (* {"error": ...} *)

(** The requests the agent sends to the orchestrator. *)
Inductive Request : Type :=
| SendAck                                         (* POST /ack/<id> *)
| UpdateStatus (status : string) (details : Report).  (* POST /status/<id> *)

(** What the agent does, in order: a call to the outside world or a
    request to the orchestrator. *)
Inductive Step : Type :=
| Do (a : Action)
| Send (r : Request).

Definition POLL_INTERVAL : Z := 10.

(** [shutdown_instance(signum)]: [in_progress] is the global
    [shutdown_in_progress]; the result is its new value and what was done. *)
Definition shutdown_instance (w : World) (in_progress : bool) (signum : nat)
  : bool * list Step :=
  if in_progress then (true, [])
  else
    (true,
     (map Do (snd (stop_docker_container w "rgo_container"))
      ++ [Do RemoveLocalDirectories;
          Send (UpdateStatus "shutting-down"
                  (Reason ("Received signal " ++ Py.str_nat signum)));
          Do (Sleep 5);
          Do ShutdownNow])%list).

(** [assignment.get("shutdown")] is truthy. *)
Definition is_shutdown (a : Assignment) : bool :=
  match a with ShutdownDirective => true | _ => false end.

(** [assignment.get("input_bucket")], [.get("output_bucket")],
    [.get("output_prefix")]: a missing key is [None]. *)
Definition get_input_bucket (a : Assignment) : option string :=
  match a with
  | ShutdownDirective => None
  | Batch _ ib _ _ _ => Some ib
  | NoTasksRemaining ib _ _ => Some ib
  end.

Definition get_output_bucket (a : Assignment) : option string :=
  match a with
  | ShutdownDirective => None
  | Batch _ _ _ ob _ => Some ob
  | NoTasksRemaining _ ob _ => Some ob
  end.

Definition get_output_prefix (a : Assignment) : option string :=
  match a with
  | ShutdownDirective => None
  | Batch _ _ _ _ op => Some op
  | NoTasksRemaining _ _ op => Some op
  end.

(** One turn of the [while True] loop of [main], given what
    [poll_for_assignment] returned ([None] for an error answer).  The
    result is what was done and whether the process has exited. *)
Definition main_iteration (w : World) (in_progress : bool)
    (polled : option Assignment) : list Step * bool :=
  match polled with
  | None => ([Do (Sleep POLL_INTERVAL)], false)
  | Some assignment =>
      let '(steps0, exited) :=
        if is_shutdown assignment then
          (Send (UpdateStatus "shutting-down" (Reason "Received shutdown command"))
             :: snd (shutdown_instance w in_progress 0),
           negb in_progress)
        else ([], false) in
      if exited then (steps0, true)
      else
        let file_names := get_file_names assignment in
        match get_input_bucket assignment with
        | Some input_bucket =>
            if Py.truthy_list file_names
               && negb (String.length input_bucket =? 0)%nat then
              let output_bucket :=
                match get_output_bucket assignment with
                | Some b => b | None => EmptyString
                end in
              let output_prefix :=
                match get_output_prefix assignment with
                | Some p => p | None => EmptyString
                end in
              let '((success, error_detail), trace) :=
                process_files w file_names input_bucket output_bucket
                              output_prefix in
              ((steps0
                ++ [Send SendAck;
                    Send (UpdateStatus "processing" (Files file_names))]
                ++ map Do trace
                ++ [Send (if success
                          then UpdateStatus "completed" (ProcessedFiles file_names)
                          else UpdateStatus "failed"
                                 (FilesError file_names error_detail));
                    Do (Sleep POLL_INTERVAL)])%list,
               false)
            else ((steps0 ++ [Do (Sleep POLL_INTERVAL)])%list, false)
        | None => ((steps0 ++ [Do (Sleep POLL_INTERVAL)])%list, false)
        end
  end.


(** The requests among the steps, in order. *)
Fixpoint requests (steps : list Step) : list Request :=
  match steps with
  | [] => []
  | Send r :: rest => r :: requests rest
  | Do _ :: rest => requests rest
  end.

(** The outside calls among the steps, in order. *)
Fixpoint actions (steps : list Step) : list Action :=
  match steps with
  | [] => []
  | Do a :: rest => a :: actions rest
  | Send _ :: rest => actions rest
  end.

End Agent.

(** ** The agent's requests as events of the scheduler *)

(** The request [r] of worker [wid], served at clock reading [now]; the
    JSON encoding of the details is a parameter. *)
Definition request_event (to_json : Agent.Report -> payload) (wid : worker_id)
    (now : Z) (r : Agent.Request) : Event :=
  match r with
  | Agent.SendAck => Acknowledge wid now now
  | Agent.UpdateStatus s d =>
      ReportStatus wid (mkStatusRequest (Some s) (Some (to_json d))) now
  end.

(** What [poll_for_assignment] returns for a response. *)
Definition polled_assignment (resp : Response) : option Assignment :=
  match resp with
  | RespAssignment a => Some a
  | _ => None
  end.

(** One turn of the agent's loop against the scheduler: the poll, then the
    agent's requests in order, all served at clock readings [now]. *)
Definition agent_turn (cfg : Config) (to_json : Agent.Report -> payload)
    (w : Agent.World) (wid : worker_id) (now : Z) (sys : System) : System * bool :=
  let resp := snd (get_assignment cfg wid now now (sys_state sys)) in
  let sys1 := step cfg sys (GetAssignment wid now now) in
  let '(steps, exited) := Agent.main_iteration w false (polled_assignment resp) in
  (run cfg sys1 (map (request_event to_json wid now) (Agent.requests steps)),
   exited).

(** ** Worlds used by the examples *)

(** Every command exits with status 0 and every transfer goes through; the
    output directory holds one result. *)
Definition calm_world : Agent.World :=
  Agent.mkWorld (fun _ => None) (fun _ _ _ => None) (fun _ _ _ => None)
                [("/tmp/output_files", ["a.seg_classes.ODS5.png"])].

(** Every docker command fails, and the key in/2.jpg cannot be fetched. *)
Definition harsh_world : Agent.World :=
  Agent.mkWorld
    (fun cmd => Some (Agent.mkCalledProcessError cmd "no such container"))
    (fun _ key _ => if String.eqb key "in/2.jpg" then Some "denied" else None)
    (fun _ _ _ => None)
    [("/tmp/output_files", ["a.seg_classes.ODS5.png"])].


(** The JSON encoding used by the examples keeps no content. *)
Definition no_json (d : Agent.Report) : payload := "{}".


(** One worker has registered on an empty pool. *)
Definition idle_system : System :=
  run cfg0 (initial []) [Register "w1" "{}" 90].

(** * Properties *)

(** ** Registry lookups after an in-place update *)

Lemma dict_get_set_same : forall wid w ws,
  dict_get wid (dict_set wid w ws) = Some w.
Proof.
  intros wid w ws. induction ws as [|[k w0] rest IH]; simpl.
  - now rewrite String.eqb_refl.
  - destruct (String.eqb k wid) eqn:E; simpl; rewrite E; auto.
Qed.

Lemma dict_get_set_other : forall wid wid' w ws,
  wid' <> wid ->
  dict_get wid' (dict_set wid w ws) = dict_get wid' ws.
Proof.
  intros wid wid' w ws Hne. induction ws as [|[k w0] rest IH]; simpl.
  - destruct (String.eqb wid wid') eqn:E; auto.
    apply String.eqb_eq in E. congruence.
  - destruct (String.eqb k wid) eqn:E; simpl.
    + apply String.eqb_eq in E. subst k.
      destruct (String.eqb wid wid') eqn:E'; auto.
      apply String.eqb_eq in E'. congruence.
    + now rewrite IH.
Qed.

Lemma dict_set_keys : forall wid w w0 ws,
  dict_get wid ws = Some w0 ->
  map fst (dict_set wid w ws) = map fst ws.
Proof.
  intros wid w w0 ws. induction ws as [|[k w1] rest IH]; simpl; [discriminate|].
  destruct (String.eqb k wid) eqn:E; simpl; intros H; auto.
  now rewrite IH.
Qed.

(** ** Polling again with a lease outstanding *)

(** C3. A registered worker that already holds an assignment gets exactly
    that assignment back from [get_assignment], whatever the clock says, and
    the call changes nothing: pool, registry (this worker's status,
    timestamps and history, every other worker) and log stay as they were.
    So a second poll answers the same as the first. *)
Theorem get_assignment_idempotent :
  forall cfg wid st worker a,
    dict_get wid (workers st) = Some worker ->
    assignment worker = Some a ->
    (forall t1 t2, get_assignment cfg wid t1 t2 st = (st, RespAssignment a)) /\
    (forall t1 t2 t3 t4,
        get_assignment cfg wid t3 t4 (fst (get_assignment cfg wid t1 t2 st))
        = get_assignment cfg wid t1 t2 st).
Proof.
  intros cfg wid st worker a Hget Ha.
  assert (H1 : forall t1 t2,
             get_assignment cfg wid t1 t2 st = (st, RespAssignment a)).
  { intros t1 t2. unfold get_assignment. now rewrite Hget, Ha. }
  split; [exact H1|].
  intros t1 t2 t3 t4. rewrite (H1 t1 t2). simpl. now rewrite H1.
Qed.

Lemma get_assignment_idempotent_witness :
  dict_get "w1" (workers st0) = Some leased_worker /\
  assignment leased_worker = Some batch0 /\
  get_assignment cfg0 "w1" 130 131 st0 = (st0, RespAssignment batch0).
Proof.
  split; [reflexivity|]. split; [reflexivity|].
  apply (proj1 (get_assignment_idempotent cfg0 "w1" st0 leased_worker batch0
                  eq_refl eq_refl)).
Defined.

(** ** Acknowledging *)

(** C6. [acknowledge_assignment] answers [NotRegistered] for an unknown
    worker id and [NoAssignmentPending] for a worker without an assignment,
    and in both cases returns the state it was given; for a worker that
    holds an assignment it sets the status to processing, stores the clock
    reading as processing start, clears the assignment timestamp, appends a
    processing event to the history, and leaves the assignment, the pool
    and every other worker alone. *)
Theorem acknowledge_assignment_spec :
  forall wid t1 t2 st,
    (dict_get wid (workers st) = None ->
     acknowledge_assignment wid t1 t2 st = (st, NotRegistered)) /\
    (forall worker,
        dict_get wid (workers st) = Some worker ->
        assignment worker = None ->
        acknowledge_assignment wid t1 t2 st = (st, NoAssignmentPending)) /\
    (forall worker a,
        dict_get wid (workers st) = Some worker ->
        assignment worker = Some a ->
        let st' := fst (acknowledge_assignment wid t1 t2 st) in
        snd (acknowledge_assignment wid t1 t2 st)
          = RespMessage "Assignment acknowledged and processing started" /\
        dict_get wid (workers st')
          = Some {| status := "processing";
                    details := details worker;
                    assignment := Some a;
                    assignment_timestamp := None;
                    processing_start := Some t1;
                    history := history worker
                               ++ [mkEvent "processing" DetailsEmpty t2] |} /\
        tasks st' = tasks st /\
        (forall wid', wid' <> wid ->
                      dict_get wid' (workers st') = dict_get wid' (workers st))).
Proof.
  intros wid t1 t2 st. unfold acknowledge_assignment, has_assignment.
  split; [|split].
  - intros H. now rewrite H.
  - intros worker Hget Ha. now rewrite Hget, Ha.
  - intros worker a Hget Ha. rewrite Hget, Ha. simpl.
    split; [reflexivity|]. split; [|split].
    + now rewrite dict_get_set_same.
    + reflexivity.
    + intros wid' Hne. now apply dict_get_set_other.
Qed.

Lemma acknowledge_assignment_spec_witness :
  acknowledge_assignment "nobody" 130 131 st0 = (st0, NotRegistered) /\
  acknowledge_assignment "w2" 130 131 st0 = (st0, NoAssignmentPending) /\
  dict_get "w1" (workers (fst (acknowledge_assignment "w1" 130 131 st0)))
    = Some {| status := "processing";
              details := details leased_worker;
              assignment := Some batch0;
              assignment_timestamp := None;
              processing_start := Some 130;
              history := history leased_worker
                         ++ [mkEvent "processing" DetailsEmpty 131] |}.
Proof.
  destruct (acknowledge_assignment_spec "nobody" 130 131 st0) as [H1 _].
  destruct (acknowledge_assignment_spec "w2" 130 131 st0) as [_ [H2 _]].
  destruct (acknowledge_assignment_spec "w1" 130 131 st0) as [_ [_ H3]].
  split; [apply H1; reflexivity|].
  split; [apply (H2 idle_worker); reflexivity|].
  apply (H3 leased_worker batch0 eq_refl eq_refl).
Defined.

(** ** Reporting a failure *)

(** C2. When a registered worker that holds an assignment reports the
    status failed, the file names of that assignment are appended to the
    back of the pool in their own order (everything that was pending stays
    in front of them), the worker's assignment and both of its timestamps
    are cleared, its status becomes failed and a failed event is appended
    to its history; no other worker is touched. *)
Theorem update_status_failed_requeues :
  forall wid req now st worker a,
    dict_get wid (workers st) = Some worker ->
    assignment worker = Some a ->
    status_of_request req = "failed" ->
    let st' := fst (update_status wid req now st) in
    tasks st' = tasks st ++ get_file_names a /\
    dict_get wid (workers st')
      = Some {| status := "failed";
                details := details worker;
                assignment := None;
                assignment_timestamp := None;
                processing_start := None;
                history := history worker
                           ++ [mkEvent "failed" (details_of_request req) now] |} /\
    (forall wid', wid' <> wid ->
                  dict_get wid' (workers st') = dict_get wid' (workers st)) /\
    snd (update_status wid req now st) = RespMessage "Status updated successfully".
Proof.
  intros wid req now st worker a Hget Ha Hs.
  unfold update_status. rewrite Hget, Ha, Hs. simpl.
  split; [reflexivity|]. split; [|split].
  - now rewrite dict_get_set_same.
  - intros wid' Hne. now apply dict_get_set_other.
  - reflexivity.
Qed.

Lemma update_status_failed_requeues_witness :
  tasks (fst (update_status "w1" (mkStatusRequest (Some "failed") None) 140 st0))
  = ["c.jpg"; "d.jpg"; "e.jpg"; "a.jpg"; "b.jpg"].
Proof.
  apply (update_status_failed_requeues
           "w1" (mkStatusRequest (Some "failed") None) 140 st0
           leased_worker batch0 eq_refl eq_refl eq_refl).
Defined.

(** ** Reporting any other status *)





(** ** Handing out a batch *)

Lemma stop_index_nonneg : forall (A : Type) (n : Z) (l : list A),
  0 <= n -> Py.stop_index n l = Z.to_nat n.
Proof.
  intros A n l Hn. unfold Py.stop_index.
  destruct (n <? 0) eqn:E; [apply Z.ltb_lt in E; lia | reflexivity].
Qed.

(** C7. With a batch size that is not negative, [get_assignment] for a
    registered worker without an assignment, on a pool that is not empty,
    answers with the first [BATCH_SIZE] tasks of the pool in pool order (all
    of them when the pool holds fewer) and leaves exactly the rest in the
    pool.  In Scenario A (pool t1..t25, batches of 10, two idle workers) the
    first worker is handed t1..t10 and 15 tasks stay pending; the second
    worker is then handed t11..t20. *)
Theorem get_assignment_fifo_batch :
  (forall cfg wid t1 t2 st worker,
      0 <= BATCH_SIZE cfg ->
      dict_get wid (workers st) = Some worker ->
      assignment worker = None ->
      tasks st <> [] ->
      let n := Z.to_nat (BATCH_SIZE cfg) in
      let batch := firstn n (tasks st) in
      let st' := fst (get_assignment cfg wid t1 t2 st) in
      snd (get_assignment cfg wid t1 t2 st)
        = RespAssignment (Batch batch (INPUT_BUCKET cfg) (INPUT_PREFIX cfg)
                                (OUTPUT_BUCKET cfg) (OUTPUT_PREFIX cfg)) /\
      tasks st = batch ++ tasks st' /\
      List.length batch = Nat.min n (List.length (tasks st)) /\
      option_map assignment (dict_get wid (workers st'))
        = Some (Some (Batch batch (INPUT_BUCKET cfg) (INPUT_PREFIX cfg)
                            (OUTPUT_BUCKET cfg) (OUTPUT_PREFIX cfg)))) /\
  (let first := get_assignment cfg0 "w1" 3 3 scenario_A_start in
   let second := get_assignment cfg0 "w2" 4 4 (fst first) in
   snd first = RespAssignment
                 (batch_of ["t1"; "t2"; "t3"; "t4"; "t5";
                            "t6"; "t7"; "t8"; "t9"; "t10"]) /\
   List.length (tasks (fst first)) = 15%nat /\
   snd second = RespAssignment
                  (batch_of ["t11"; "t12"; "t13"; "t14"; "t15";
                             "t16"; "t17"; "t18"; "t19"; "t20"])).
Proof.
  split.
  - intros cfg wid t1 t2 st worker Hn Hget Ha Hne n batch st'.
    subst n batch st'. unfold get_assignment. rewrite Hget, Ha.
    destruct (tasks st) as [|t pool] eqn:Hpool; [congruence|].
    unfold all_tasks_completed. simpl Nat.eqb. cbv iota.
    unfold Py.truthy_list, Py.slice_to, Py.del_to.
    rewrite stop_index_nonneg by assumption. cbn [fst snd tasks workers].
    split; [reflexivity|]. split; [|split].
    + symmetry. apply firstn_skipn.
    + apply length_firstn.
    + now rewrite dict_get_set_same.
  - vm_compute. repeat split.
Qed.

Lemma get_assignment_fifo_batch_witness :
  snd (get_assignment cfg0 "w2" 150 151 st0)
  = RespAssignment (batch_of ["c.jpg"; "d.jpg"; "e.jpg"]).
Proof.
  apply (proj1 get_assignment_fifo_batch cfg0 "w2" 150 151 st0 idle_worker).
  - vm_compute. discriminate.
  - reflexivity.
  - reflexivity.
  - discriminate.
Defined.

(** ** One pass of the timeout sweep *)

Lemma truthy_num_pos : forall t, 0 < t -> Py.truthy_num (Some t) = true.
Proof.
  intros t Ht. unfold Py.truthy_num.
  destruct (t =? 0) eqn:E; [apply Z.eqb_eq in E; lia | reflexivity].
Qed.

Lemma gtb_true : forall a b, a > b -> (a >? b) = true.
Proof. intros a b H. rewrite Z.gtb_ltb. apply Z.ltb_lt. lia. Qed.

Lemma gtb_false : forall a b, a <= b -> (a >? b) = false.
Proof. intros a b H. rewrite Z.gtb_ltb. apply Z.ltb_ge. lia. Qed.

Lemma sound_ack_timed_out : forall w now ts,
  sound_worker w -> assignment_timestamp w = Some ts ->
  sound_worker (ack_timed_out w now ts).
Proof.
  intros w now ts [Ha Hp] Hts. split; simpl; intros x Hx; [discriminate|].
  destruct (Ha ts Hts) as (_ & _ & Hnone). congruence.
Qed.

Lemma sound_processing_timed_out : forall w now ps,
  sound_worker w -> processing_start w = Some ps ->
  sound_worker (processing_timed_out w now ps).
Proof.
  intros w now ps [Ha Hp] Hps. split; simpl; intros x Hx; [|discriminate].
  destruct (Ha x Hx) as (_ & _ & Hnone). congruence.
Qed.

(** One loop iteration on a well-formed record: it does not raise, it only
    appends to the pool, and it meets [sweep_post]. *)
Lemma timeout_worker_post : forall cfg now wid w pool logs,
  sound_worker w ->
  exists w' fs logs',
    timeout_worker cfg now wid (w, pool, logs) = ((w', pool ++ fs, logs'), false) /\
    sweep_post cfg now w w' fs /\
    sound_worker w'.
Proof.
  intros cfg now wid w pool logs Hs. pose proof Hs as [Ha Hp].
  unfold timeout_worker, check_ack_timeout.
  destruct (String.eqb (status w) "waiting_ack") eqn:Est.
  - (* status is waiting_ack: the processing check cannot apply *)
    apply String.eqb_eq in Est.
    assert (Hnp : String.eqb (status w) "processing" = false)
      by (rewrite Est; reflexivity).
    destruct (assignment_timestamp w) as [ts|] eqn:Hts.
    + destruct (Ha ts eq_refl) as (Hpos & Hasg & _).
      rewrite truthy_num_pos by assumption. cbn [andb].
      destruct (Z_gt_le_dec (now - ts) (ACK_TIMEOUT cfg)) as [Hgt|Hle].
      * rewrite gtb_true by assumption.
        destruct (assignment w) as [a|] eqn:Hasgn; [|congruence].
        unfold check_processing_timeout. cbn [status andb].
        exists (ack_timed_out w now ts), (get_file_names a). eexists.
        split; [reflexivity|]. split.
        -- repeat split; intros; try congruence; try lia.
        -- apply sound_ack_timed_out; assumption.
      * rewrite gtb_false by assumption.
        unfold check_processing_timeout. rewrite Hnp. cbn [andb].
        exists w, [], logs. rewrite app_nil_r.
        split; [reflexivity|]. split; [|assumption].
        repeat split; intros; try congruence; try lia.
    + cbn [Py.truthy_num andb].
      unfold check_processing_timeout. rewrite Hnp. cbn [andb].
      exists w, [], logs. rewrite app_nil_r.
      split; [reflexivity|]. split; [|assumption].
      repeat split; intros; congruence.
  - (* status is not waiting_ack *)
    cbn [andb]. unfold check_processing_timeout.
    assert (Hnw : status w <> "waiting_ack")
      by (now apply String.eqb_neq).
    destruct (String.eqb (status w) "processing") eqn:Epr.
    + destruct (processing_start w) as [ps|] eqn:Hps.
      * destruct (Hp ps eq_refl) as (Hpos & Hasg).
        rewrite truthy_num_pos by assumption. cbn [andb].
        destruct (Z_gt_le_dec (now - ps) (PROCESSING_TIMEOUT cfg)) as [Hgt|Hle].
        -- rewrite gtb_true by assumption.
           destruct (assignment w) as [a|] eqn:Hasgn; [|congruence].
           exists (processing_timed_out w now ps), (get_file_names a). eexists.
           split; [reflexivity|]. split.
           ++ repeat split; intros; try congruence; try lia.
           ++ apply sound_processing_timed_out; assumption.
        -- rewrite gtb_false by assumption.
           exists w, [], logs. rewrite app_nil_r.
           split; [reflexivity|]. split; [|assumption].
           repeat split; intros; try congruence; try lia.
      * cbn [Py.truthy_num andb].
        exists w, [], logs. rewrite app_nil_r.
        split; [reflexivity|]. split; [|assumption].
        repeat split; intros; congruence.
    + cbn [andb].
      assert (Hnp : status w <> "processing") by (now apply String.eqb_neq).
      exists w, [], logs. rewrite app_nil_r.
      split; [reflexivity|]. split; [|assumption].
      repeat split; intros; congruence.
Qed.

(** The whole loop on a registry of well-formed records: no exception, the
    same worker ids in the same order, and every record and the pool are as
    [sweep_post] says, the returned files landing behind the old pool. *)
Lemma timeout_items_post : forall cfg now items pool logs,
  Forall (fun kw => sound_worker (snd kw)) items ->
  exists items' extra logs',
    timeout_items cfg now items pool logs = (items', pool ++ extra, logs', false) /\
    map fst items' = map fst items /\
    Forall (fun kw => sound_worker (snd kw)) items' /\
    (forall i wid w,
        nth_error items i = Some (wid, w) ->
        exists w' fs before after,
          nth_error items' i = Some (wid, w') /\
          sweep_post cfg now w w' fs /\
          extra = before ++ fs ++ after).
Proof.
  intros cfg now items. induction items as [|[wid0 w0] rest IH];
    intros pool logs Hall.
  - exists [], [], logs. simpl. rewrite app_nil_r.
    repeat split; auto. intros [|i] wid w H; discriminate.
  - inversion Hall as [|? ? Hw0 Hrest]; subst. simpl in Hw0.
    destruct (timeout_worker_post cfg now wid0 w0 pool logs Hw0)
      as (w0' & fs0 & logs0 & Hstep & Hpost & Hsound).
    destruct (IH (pool ++ fs0) logs0 Hrest)
      as (rest' & extra & logs' & Hloop & Hkeys & Hall' & Hnth).
    exists ((wid0, w0') :: rest'), (fs0 ++ extra), logs'.
    simpl. rewrite Hstep, Hloop. rewrite app_assoc.
    split; [reflexivity|]. split; [simpl; now rewrite Hkeys|].
    split; [constructor; assumption|].
    intros [|i] wid w H; simpl in H.
    + injection H as <- <-.
      exists w0', fs0, [], extra. simpl. auto.
    + destruct (Hnth i wid w H) as (w' & fs & before & after & H1 & H2 & H3).
      exists w', fs, (fs0 ++ before), after. simpl.
      split; [assumption|]. split; [assumption|].
      subst extra. now rewrite app_assoc.
Qed.

(** ** Well-formedness is an invariant *)

Lemma Forall_dict_set : forall (P : Worker -> Prop) wid w ws,
  Forall (fun kw => P (snd kw)) ws -> P w ->
  Forall (fun kw => P (snd kw)) (dict_set wid w ws).
Proof.
  intros P wid w ws Hall Hw. induction Hall as [|[k w0] rest Hk Hrest IH]; simpl.
  - constructor; auto.
  - destruct (String.eqb k wid); constructor; auto.
Qed.

Lemma Forall_dict_get : forall (P : Worker -> Prop) wid w ws,
  Forall (fun kw => P (snd kw)) ws -> dict_get wid ws = Some w -> P w.
Proof.
  intros P wid w ws Hall. induction Hall as [|[k w0] rest Hk Hrest IH]; simpl.
  - discriminate.
  - destruct (String.eqb k wid); [intros [= <-]; exact Hk | exact IH].
Qed.

Lemma sound_released : forall w s ev, sound_worker (released w s ev).
Proof. intros w s ev. split; simpl; intros x Hx; discriminate. Qed.

Lemma sound_restatus : forall w s ev,
  sound_worker w -> sound_worker (restatus w s ev).
Proof. intros w s ev [Ha Hp]. split; simpl; auto. Qed.

Lemma sound_unleased : forall w,
  sound_worker w -> assignment w = None ->
  assignment_timestamp w = None /\ processing_start w = None.
Proof.
  intros w [Ha Hp] Hnone. split.
  - destruct (assignment_timestamp w) as [ts|]; [|reflexivity].
    destruct (Ha ts eq_refl) as (_ & H & _). congruence.
  - destruct (processing_start w) as [ps|]; [|reflexivity].
    destruct (Hp ps eq_refl) as (_ & H). congruence.
Qed.

Lemma register_worker_sound : forall wid d now st,
  sound_workers (workers st) ->
  sound_workers (workers (fst (register_worker wid d now st))).
Proof.
  intros wid d now st H. unfold register_worker. simpl.
  apply (Forall_dict_set sound_worker); [exact H|].
  split; simpl; intros x Hx; discriminate.
Qed.

Lemma get_assignment_sound : forall cfg wid t1 t2 st,
  0 < t1 ->
  sound_workers (workers st) ->
  sound_workers (workers (fst (get_assignment cfg wid t1 t2 st))).
Proof.
  intros cfg wid t1 t2 st Ht H. unfold get_assignment.
  destruct (dict_get wid (workers st)) as [w|] eqn:Hget; [|exact H].
  pose proof (Forall_dict_get sound_worker _ _ _ H Hget) as Hw.
  destruct (assignment w) as [a|] eqn:Ha; [exact H|].
  destruct (sound_unleased w Hw Ha) as [Hts Hps].
  destruct (all_tasks_completed (tasks st)).
  - simpl. apply (Forall_dict_set sound_worker); [exact H|].
    split; simpl; intros x Hx; congruence.
  - destruct (Py.truthy_list (tasks st)); simpl;
      (apply (Forall_dict_set sound_worker); [exact H|]);
      (split; simpl; intros x Hx;
       [injection Hx as <-; repeat split; [lia | discriminate | assumption]
       | congruence]).
Qed.

Lemma acknowledge_assignment_sound : forall wid t1 t2 st,
  0 < t1 ->
  sound_workers (workers st) ->
  sound_workers (workers (fst (acknowledge_assignment wid t1 t2 st))).
Proof.
  intros wid t1 t2 st Ht H. unfold acknowledge_assignment, has_assignment.
  destruct (dict_get wid (workers st)) as [w|] eqn:Hget; [|exact H].
  destruct (assignment w) as [a|] eqn:Ha; [|exact H].
  simpl. apply (Forall_dict_set sound_worker); [exact H|].
  split; simpl; intros x Hx; [discriminate|].
  injection Hx as <-. split; [lia | discriminate].
Qed.

Lemma update_status_sound : forall wid req now st,
  sound_workers (workers st) ->
  sound_workers (workers (fst (update_status wid req now st))).
Proof.
  intros wid req now st H. unfold update_status.
  destruct (dict_get wid (workers st)) as [w|] eqn:Hget; [|exact H].
  pose proof (Forall_dict_get sound_worker _ _ _ H Hget) as Hw.
  destruct (assignment w) as [a|];
    repeat match goal with
           | |- context [if ?b then _ else _] => destruct b
           end;
    simpl; apply (Forall_dict_set sound_worker);
    auto using sound_released, sound_restatus.
Qed.

Lemma timeout_checker_sound : forall cfg now st,
  sound_workers (workers st) ->
  snd (timeout_checker cfg now st) = false /\
  sound_workers (workers (fst (timeout_checker cfg now st))).
Proof.
  intros cfg now st H. unfold timeout_checker.
  destruct (timeout_items_post cfg now (workers st) (tasks st) (app_logs st) H)
    as (items' & extra & logs' & Hloop & _ & Hall & _).
  rewrite Hloop. simpl. auto.
Qed.

Lemma step_preserves_inv : forall cfg sys e,
  scheduler_inv sys -> admissible sys e -> scheduler_inv (step cfg sys e).
Proof.
  intros cfg sys e [Halive Hs] [Hclock _].
  destruct e as [wid d now|wid t1 t2|wid t1 t2|wid req now|now|];
    simpl in Hclock; unfold step, with_state, scheduler_inv; simpl.
  - split; [assumption | now apply register_worker_sound].
  - inversion Hclock; subst. split; [assumption | now apply get_assignment_sound].
  - inversion Hclock; subst.
    split; [assumption | now apply acknowledge_assignment_sound].
  - split; [assumption | now apply update_status_sound].
  - rewrite Halive.
    destruct (timeout_checker_sound cfg now (sys_state sys) Hs) as [Hr Hs'].
    destruct (timeout_checker cfg now (sys_state sys)) as [st' raised].
    simpl in *. subst raised. split; [reflexivity | assumption].
  - destruct (notifier_alive sys); [|split; assumption].
    destruct (shutdown_notifier (workers (sys_state sys))) as [effs go_on].
    simpl. split; assumption.
Qed.

Lemma reachable_inv : forall cfg discovered sys,
  reachable cfg discovered sys -> scheduler_inv sys.
Proof.
  intros cfg discovered sys H. induction H as [|sys e Hr IH Hadm].
  - split; [reflexivity | constructor].
  - now apply step_preserves_inv.
Qed.

Lemma reachable_run : forall cfg discovered es sys,
  reachable cfg discovered sys ->
  admissible_run cfg sys es ->
  reachable cfg discovered (run cfg sys es).
Proof.
  intros cfg discovered es. induction es as [|e rest IH]; intros sys Hr Hadm.
  - exact Hr.
  - destruct Hadm as [He Hrest]. simpl. apply IH; [|exact Hrest].
    now apply reachable_step.
Qed.


Lemma leased_system_reachable :
  reachable cfg0 ["a.jpg"; "b.jpg"; "c.jpg"] leased_system.
Proof.
  apply reachable_run; [constructor|].
  simpl. repeat split; repeat constructor.
Qed.


(** ** The drain check *)

Lemma all_shutting_down_drained : forall ws,
  all_shutting_down ws = true <-> drained ws.
Proof.
  intros ws. unfold all_shutting_down, drained. split.
  - intros H. apply andb_true_iff in H. destruct H as [Hne Hall]. split.
    + destruct ws; [discriminate | discriminate].
    + intros wid w Hin. rewrite forallb_forall in Hall.
      apply String.eqb_eq. exact (Hall (wid, w) Hin).
  - intros [Hne Hall]. apply andb_true_iff. split.
    + destruct ws; [congruence | reflexivity].
    + apply forallb_forall. intros [wid w] Hin. simpl.
      apply String.eqb_eq. eauto.
Qed.

Lemma step_effects_stopped : forall cfg sys e,
  notifier_alive sys = false ->
  notifier_alive (step cfg sys e) = false /\
  effects (step cfg sys e) = effects sys.
Proof.
  intros cfg sys e Hdead. destruct e; simpl; unfold with_state; simpl; auto.
  - destruct (checker_alive sys); [|auto].
    destruct (timeout_checker cfg now (sys_state sys)). simpl. auto.
  - rewrite Hdead. auto.
Qed.

Lemma run_effects_stopped : forall cfg es sys,
  notifier_alive sys = false ->
  notifier_alive (run cfg sys es) = false /\
  effects (run cfg sys es) = effects sys.
Proof.
  intros cfg es. induction es as [|e rest IH]; intros sys Hdead; simpl.
  - auto.
  - destruct (step_effects_stopped cfg sys e Hdead) as [Hd He].
    destruct (IH _ Hd) as [Hd' He']. split; congruence.
Qed.

Lemma step_effects_once : forall cfg sys e,
  (notifier_alive sys = true /\ effects sys = []) \/
  (notifier_alive sys = false /\ effects sys = terminal_actions) ->
  (notifier_alive (step cfg sys e) = true /\ effects (step cfg sys e) = []) \/
  (notifier_alive (step cfg sys e) = false /\
   effects (step cfg sys e) = terminal_actions).
Proof.
  intros cfg sys e [[Hal Hef]|[Hal Hef]].
  - destruct e; simpl; unfold with_state; simpl; auto.
    + destruct (checker_alive sys); [|auto].
      destruct (timeout_checker cfg now (sys_state sys)). simpl. auto.
    + rewrite Hal. unfold shutdown_notifier.
      destruct (all_shutting_down (workers (sys_state sys))); simpl;
        rewrite Hef; simpl; auto.
  - right. destruct (step_effects_stopped cfg sys e Hal). split; congruence.
Qed.

(** C5. A pass of the drain check that is taken (the thread is running)
    performs the terminal notification and the teardown exactly when the
    registry is non-empty and every worker's status is shutting-down; it
    then stops for good, and any other pass does nothing and keeps the
    thread running.  Once the thread has stopped no later event adds an
    effect, and in every state the scheduler can reach the terminal
    actions have been performed either not at all or exactly once. *)
Theorem drain_coordinator_one_shot :
  forall cfg,
    (forall sys,
        notifier_alive sys = true ->
        let sys' := step cfg sys DrainPass in
        (drained (workers (sys_state sys)) ->
         effects sys' = effects sys ++ terminal_actions /\
         notifier_alive sys' = false) /\
        (~ drained (workers (sys_state sys)) ->
         effects sys' = effects sys /\ notifier_alive sys' = true) /\
        sys_state sys' = sys_state sys) /\
    (forall sys es,
        notifier_alive sys = false ->
        effects (run cfg sys es) = effects sys /\
        notifier_alive (run cfg sys es) = false) /\
    (forall discovered sys,
        reachable cfg discovered sys ->
        (notifier_alive sys = true /\ effects sys = []) \/
        (notifier_alive sys = false /\ effects sys = terminal_actions)).
Proof.
  intros cfg. split; [|split].
  - intros sys Hal sys'. subst sys'. unfold step. rewrite Hal.
    unfold shutdown_notifier.
    destruct (all_shutting_down (workers (sys_state sys))) eqn:E; simpl.
    + split; [auto|]. split; [|reflexivity].
      intros Hn. exfalso. apply Hn. now apply all_shutting_down_drained.
    + split; [|split; [|reflexivity]].
      * intros Hd. apply all_shutting_down_drained in Hd. congruence.
      * intros _. now rewrite app_nil_r.
  - intros sys es Hdead.
    destruct (run_effects_stopped cfg es sys Hdead). auto.
  - intros discovered sys Hr. induction Hr as [|sys e Hr IH Hadm].
    + left. split; reflexivity.
    + now apply step_effects_once.
Qed.

Lemma drain_coordinator_one_shot_witness :
  drained (workers (sys_state drained_system)) /\
  effects (step cfg0 drained_system DrainPass) = terminal_actions /\
  effects (run cfg0 (step cfg0 drained_system DrainPass) [DrainPass; DrainPass])
  = terminal_actions.
Proof.
  assert (Hd : drained (workers (sys_state drained_system))).
  { split; [discriminate|]. intros wid w [H|[]]. now inversion H. }
  destruct (drain_coordinator_one_shot cfg0) as (Hpass & Hstop & _).
  destruct (Hpass drained_system eq_refl) as (Hfire & _ & _).
  destruct (Hfire Hd) as [Heff Hal].
  split; [exact Hd|]. split; [exact Heff|].
  destruct (Hstop _ [DrainPass; DrainPass] Hal) as [H _].
  rewrite H. exact Heff.
Defined.

(** ** The branch for an empty pool behind the emptiness check *)

Lemma passed_emptiness_check : forall pool,
  all_tasks_completed pool = false -> Py.truthy_list pool = true.
Proof. intros [|t pool] H; [discriminate | reflexivity]. Qed.

Lemma timeout_worker_assignment : forall cfg now wid w pool logs,
  let w' := fst (fst (fst (timeout_worker cfg now wid (w, pool, logs)))) in
  assignment w' = assignment w \/ assignment w' = None.
Proof.
  intros cfg now wid w pool logs.
  unfold timeout_worker, check_ack_timeout, check_processing_timeout.
  repeat match goal with
         | |- context [if ?b then _ else _] => destruct b; cbn
         | |- context [match assignment_timestamp w with _ => _ end] =>
             destruct (assignment_timestamp w); cbn
         | |- context [match processing_start w with _ => _ end] =>
             destruct (processing_start w); cbn
         | |- context [match assignment w with _ => _ end] =>
             destruct (assignment w) eqn:?; cbn
         end; auto.
Qed.

Lemma timeout_items_not_no_tasks : forall cfg now items pool logs,
  Forall (fun kw => not_no_tasks (assignment (snd kw))) items ->
  Forall (fun kw => not_no_tasks (assignment (snd kw)))
         (fst (fst (fst (timeout_items cfg now items pool logs)))).
Proof.
  intros cfg now items. induction items as [|[wid w] rest IH];
    intros pool logs Hall; simpl.
  - constructor.
  - inversion Hall as [|? ? Hw Hrest]; subst. simpl in Hw.
    pose proof (timeout_worker_assignment cfg now wid w pool logs) as Hasg.
    destruct (timeout_worker cfg now wid (w, pool, logs))
      as [[[w' pool'] logs'] raised]. simpl in Hasg.
    assert (Hw' : not_no_tasks (assignment w'))
      by (destruct Hasg as [->| ->]; [assumption | exact I]).
    destruct raised; simpl.
    + constructor; assumption.
    + specialize (IH pool' logs' Hrest).
      destruct (timeout_items cfg now rest pool' logs')
        as [[[rest' pool''] logs''] raised']. simpl in *.
      constructor; assumption.
Qed.

Lemma step_not_no_tasks : forall cfg sys e,
  Forall (fun kw => not_no_tasks (assignment (snd kw))) (workers (sys_state sys)) ->
  Forall (fun kw => not_no_tasks (assignment (snd kw)))
         (workers (sys_state (step cfg sys e))).
Proof.
  intros cfg sys e H.
  set (P := fun w : Worker => not_no_tasks (assignment w)).
  destruct e as [wid d now|wid t1 t2|wid t1 t2|wid req now|now|]; simpl.
  - apply (Forall_dict_set P); [exact H | exact I].
  - unfold get_assignment.
    destruct (dict_get wid (workers (sys_state sys))) as [w|]; [|exact H].
    destruct (assignment w); [exact H|].
    destruct (all_tasks_completed (tasks (sys_state sys))) eqn:E; simpl.
    + apply (Forall_dict_set P); [exact H | exact I].
    + rewrite (passed_emptiness_check _ E). simpl.
      apply (Forall_dict_set P); [exact H | exact I].
  - unfold acknowledge_assignment, has_assignment.
    destruct (dict_get wid (workers (sys_state sys))) as [w|] eqn:Hget; [|exact H].
    pose proof (Forall_dict_get P _ _ _ H Hget) as Hw.
    destruct (assignment w) eqn:Ha; [|exact H]. simpl.
    apply (Forall_dict_set P); [exact H|]. unfold P. simpl. unfold P in Hw.
    now rewrite Ha in Hw.
  - unfold update_status.
    destruct (dict_get wid (workers (sys_state sys))) as [w|] eqn:Hget; [|exact H].
    pose proof (Forall_dict_get P _ _ _ H Hget) as Hw.
    destruct (assignment w) eqn:Ha;
      repeat match goal with
             | |- context [if ?b then _ else _] => destruct b
             end;
      simpl; apply (Forall_dict_set P); try exact H;
      unfold P, restatus, released; simpl; try exact I;
      unfold P in Hw; rewrite Ha in *; exact Hw.
  - destruct (checker_alive sys); [|exact H].
    pose proof (timeout_items_not_no_tasks cfg now _
                  (tasks (sys_state sys)) (app_logs (sys_state sys)) H) as Hs.
    unfold timeout_checker.
    destruct (timeout_items cfg now (workers (sys_state sys))
                (tasks (sys_state sys)) (app_logs (sys_state sys)))
      as [[[ws' pool'] logs'] raised]. exact Hs.
  - destruct (notifier_alive sys); [|exact H].
    destruct (shutdown_notifier (workers (sys_state sys))). exact H.
Qed.

(** C10. In [get_assignment] a pool that passes the emptiness check is
    truthy at the batch-taking [if], so the [else] that builds the
    empty-file "No tasks remaining" assignment is never taken: the handler
    never hands that assignment to a worker that did not already hold it,
    and in no state the scheduler can reach does any registered worker hold
    it. *)
Theorem no_tasks_remaining_unreachable :
  (forall pool, all_tasks_completed pool = false -> Py.truthy_list pool = true) /\
  (forall cfg wid t1 t2 st ib ob op,
      snd (get_assignment cfg wid t1 t2 st)
        = RespAssignment (NoTasksRemaining ib ob op) ->
      exists worker,
        dict_get wid (workers st) = Some worker /\
        assignment worker = Some (NoTasksRemaining ib ob op) /\
        fst (get_assignment cfg wid t1 t2 st) = st) /\
  (forall cfg discovered sys,
      reachable cfg discovered sys ->
      forall wid worker ib ob op,
        In (wid, worker) (workers (sys_state sys)) ->
        assignment worker <> Some (NoTasksRemaining ib ob op)).
Proof.
  split; [exact passed_emptiness_check|]. split.
  - intros cfg wid t1 t2 st ib ob op. unfold get_assignment.
    destruct (dict_get wid (workers st)) as [w|]; [|discriminate].
    destruct (assignment w) as [a|] eqn:Ha.
    + simpl. intros [= ->]. exists w. auto.
    + destruct (all_tasks_completed (tasks st)) eqn:E; simpl; [discriminate|].
      rewrite (passed_emptiness_check _ E). simpl. discriminate.
  - intros cfg discovered sys Hr.
    assert (Hall : Forall (fun kw => not_no_tasks (assignment (snd kw)))
                          (workers (sys_state sys))).
    { induction Hr as [|sys e Hr IH Hadm]; [constructor|].
      now apply step_not_no_tasks. }
    intros wid worker ib ob op Hin Heq.
    rewrite Forall_forall in Hall. specialize (Hall _ Hin). simpl in Hall.
    now rewrite Heq in Hall.
Qed.

Lemma no_tasks_remaining_unreachable_witness :
  assignment (snd ("w1", leased_worker)) <> Some (NoTasksRemaining "i" "o" "p") /\
  forall wid worker,
    In (wid, worker) (workers (sys_state leased_system)) ->
    assignment worker <> Some (NoTasksRemaining "i" "o" "p").
Proof.
  split; [discriminate|].
  intros wid worker Hin.
  exact (proj2 (proj2 no_tasks_remaining_unreachable)
           cfg0 _ leased_system leased_system_reachable wid worker "i" "o" "p" Hin).
Defined.

(** ** Requests of other workers leave a record alone *)







(** ** A lease that is never reported on *)

Section Stalled.

Variable cfg : Config.
Variable wid : worker_id.
Variable wa : Worker.       (* the record after the acknowledgement *)
Variable a : Assignment.
Variable t : Z.             (* the clock reading stored by the acknowledgement *)

Hypothesis wa_status : status wa = "processing".
Hypothesis wa_start : processing_start wa = Some t.
Hypothesis wa_assignment : assignment wa = Some a.




End Stalled.




(** ** Task conservation *)

(** C1, at a run the code can take.  A worker that holds the three
    discovered tasks and reports shutting-down has its assignment cleared
    with nothing returned to the pool and nothing marked completed: up to the
    report the three collections hold exactly the discovered tasks, after it
    they hold none. *)
Theorem shutting_down_report_loses_tasks :
  admissible_run cfg0 (initial ["a.jpg"; "b.jpg"; "c.jpg"]) interrupted_events /\
  accounted cfg0 ["a.jpg"; "b.jpg"; "c.jpg"] (firstn 3 interrupted_events)
  = ["a.jpg"; "b.jpg"; "c.jpg"] /\
  accounted cfg0 ["a.jpg"; "b.jpg"; "c.jpg"] interrupted_events = [] /\
  ~ Permutation (accounted cfg0 ["a.jpg"; "b.jpg"; "c.jpg"] interrupted_events)
                ["a.jpg"; "b.jpg"; "c.jpg"].
Proof.
  split; [simpl; repeat split; repeat constructor|].
  split; [reflexivity|]. split; [reflexivity|].
  intros H. apply Permutation_length in H. discriminate H.
Qed.

Lemma cnt_app : forall x l1 l2, cnt x (l1 ++ l2) = (cnt x l1 + cnt x l2)%nat.
Proof. intros. apply count_occ_app. Qed.

Lemma cnt_nil : forall x, cnt x [] = 0%nat.
Proof. reflexivity. Qed.

Lemma leased_cons : forall k w ws,
  leased ((k, w) :: ws) = files_held w ++ leased ws.
Proof. reflexivity. Qed.

Lemma leased_dict_set_fresh : forall wid w ws,
  dict_get wid ws = None ->
  leased (dict_set wid w ws) = leased ws ++ files_held w.
Proof.
  intros wid w ws. induction ws as [|[k w0] rest IH];
    cbn [dict_get dict_set]; intros H.
  - unfold leased. simpl. now rewrite app_nil_r.
  - destruct (String.eqb k wid); [discriminate|].
    rewrite !leased_cons, IH by assumption. now rewrite app_assoc.
Qed.

Lemma cnt_leased_dict_set : forall x wid w w' ws,
  dict_get wid ws = Some w ->
  (cnt x (leased (dict_set wid w' ws)) + cnt x (files_held w)
   = cnt x (leased ws) + cnt x (files_held w'))%nat.
Proof.
  intros x wid w w' ws. induction ws as [|[k w0] rest IH];
    cbn [dict_get dict_set]; intros H.
  - discriminate.
  - destruct (String.eqb k wid).
    + injection H as ->. rewrite !leased_cons, !cnt_app. lia.
    + specialize (IH H). rewrite !leased_cons, !cnt_app. lia.
Qed.

Lemma timeout_worker_conserves : forall cfg now wid w pool logs,
  exists fs,
    snd (fst (fst (timeout_worker cfg now wid (w, pool, logs)))) = pool ++ fs /\
    files_held w
    = files_held (fst (fst (fst (timeout_worker cfg now wid (w, pool, logs)))))
      ++ fs.
Proof.
  intros cfg now wid w pool logs.
  unfold timeout_worker, check_ack_timeout, check_processing_timeout.
  repeat match goal with
         | |- context [if ?b then _ else _] => destruct b; cbn
         | |- context [match assignment_timestamp w with _ => _ end] =>
             destruct (assignment_timestamp w); cbn
         | |- context [match processing_start w with _ => _ end] =>
             destruct (processing_start w); cbn
         | |- context [match assignment w with _ => _ end] =>
             destruct (assignment w) eqn:?; cbn
         end;
    first [ exists []; now rewrite !app_nil_r
          | eexists; split; [reflexivity|];
            unfold files_held; cbn;
            match goal with H : assignment w = _ |- _ => now rewrite H end ].
Qed.

Lemma timeout_items_conserves : forall cfg now x items pool logs,
  (cnt x (snd (fst (fst (timeout_items cfg now items pool logs))))
   + cnt x (leased (fst (fst (fst (timeout_items cfg now items pool logs)))))
   = cnt x pool + cnt x (leased items))%nat.
Proof.
  intros cfg now x items. induction items as [|[wid w] rest IH];
    intros pool logs; cbn [timeout_items].
  - reflexivity.
  - destruct (timeout_worker_conserves cfg now wid w pool logs)
      as (fs & Hpool & Hheld).
    destruct (timeout_worker cfg now wid (w, pool, logs))
      as [[[w' pool'] logs'] raised]. cbn [fst snd] in Hpool, Hheld.
    subst pool'. destruct raised; cbn [fst snd].
    + rewrite !leased_cons, Hheld, !cnt_app. lia.
    + specialize (IH (pool ++ fs) logs').
      destruct (timeout_items cfg now rest (pool ++ fs) logs')
        as [[[rest' pool''] logs''] raised']. cbn [fst snd] in *.
      rewrite !leased_cons, Hheld, !cnt_app in *. lia.
Qed.

Lemma held_nothing : forall w, assignment w = None -> files_held w = [].
Proof. intros w H. unfold files_held. now rewrite H. Qed.

Lemma in_flight_with_state : forall sys st,
  in_flight (with_state sys st) = tasks st ++ leased (workers st).
Proof. reflexivity. Qed.

Lemma get_assignment_conserves : forall cfg wid t1 t2 st x,
  cnt x (tasks (fst (get_assignment cfg wid t1 t2 st))
         ++ leased (workers (fst (get_assignment cfg wid t1 t2 st))))
  = cnt x (tasks st ++ leased (workers st)).
Proof.
  intros cfg wid t1 t2 st x. unfold get_assignment.
  destruct (dict_get wid (workers st)) as [w|] eqn:Hget; [|reflexivity].
  destruct (assignment w) as [a|] eqn:Ha; [reflexivity|].
  pose proof (held_nothing w Ha) as Hheld.
  destruct (all_tasks_completed (tasks st)); cbn [fst tasks workers].
  - rewrite !cnt_app.
    pose proof (cnt_leased_dict_set x wid w
      {| status := "shutdown"; details := details w;
         assignment := Some ShutdownDirective;
         assignment_timestamp := assignment_timestamp w;
         processing_start := processing_start w;
         history := history w ++
           [mkEvent "shutdown" (DetailsAssignment ShutdownDirective) t1] |}
      (workers st) Hget) as Hc.
    rewrite Hheld in Hc. unfold files_held in Hc.
    cbn [assignment get_file_names] in Hc. rewrite !cnt_nil in Hc. lia.
  - destruct (Py.truthy_list (tasks st)); cbn [fst tasks workers];
      rewrite !cnt_app;
      match goal with
      | |- context [dict_set wid ?w' _] =>
          pose proof (cnt_leased_dict_set x wid w w' (workers st) Hget) as Hc
      end;
      rewrite Hheld in Hc; unfold files_held in Hc;
      cbn [assignment get_file_names] in Hc; rewrite ?cnt_nil in Hc.
    + unfold Py.slice_to, Py.del_to in *.
      assert (Hsplit :
                cnt x (tasks st)
                = (cnt x (firstn (Py.stop_index (BATCH_SIZE cfg) (tasks st))
                            (tasks st))
                   + cnt x (skipn (Py.stop_index (BATCH_SIZE cfg) (tasks st))
                              (tasks st)))%nat)
        by (now rewrite <- cnt_app, firstn_skipn).
      lia.
    + lia.
Qed.

Lemma acknowledge_assignment_conserves : forall wid t1 t2 st x,
  cnt x (tasks (fst (acknowledge_assignment wid t1 t2 st))
         ++ leased (workers (fst (acknowledge_assignment wid t1 t2 st))))
  = cnt x (tasks st ++ leased (workers st)).
Proof.
  intros wid t1 t2 st x. unfold acknowledge_assignment.
  destruct (dict_get wid (workers st)) as [w|] eqn:Hget; [|reflexivity].
  destruct (negb (has_assignment w)); [reflexivity|].
  cbn [fst tasks workers]. rewrite !cnt_app.
  match goal with
  | |- context [dict_set wid ?w' _] =>
      pose proof (cnt_leased_dict_set x wid w w' (workers st) Hget) as Hc
  end.
  unfold files_held in Hc. cbn [assignment] in Hc. lia.
Qed.

Lemma held_released : forall w s ev, files_held (released w s ev) = [].
Proof. reflexivity. Qed.

Lemma held_restatus : forall w s ev, files_held (restatus w s ev) = files_held w.
Proof. reflexivity. Qed.

Lemma if_same : forall (A : Type) (b : bool) (v : A), (if b then v else v) = v.
Proof. intros A [|] v; reflexivity. Qed.

Lemma update_status_conserves : forall wid req now st x,
  let cleared s :=
    match dict_get wid (workers st) with
    | Some w => if String.eqb (status_of_request req) s then files_held w else []
    | None => []
    end in
  (cnt x (tasks (fst (update_status wid req now st))
          ++ leased (workers (fst (update_status wid req now st))))
   + cnt x (cleared "completed") + cnt x (cleared "shutting-down")
   = cnt x (tasks st ++ leased (workers st)))%nat.
Proof.
  intros wid req now st x cleared. subst cleared. unfold update_status.
  destruct (dict_get wid (workers st)) as [w|] eqn:Hget;
    [|cbn [fst]; rewrite cnt_nil; lia].
  pose proof (fun w' => cnt_leased_dict_set x wid w w' (workers st) Hget) as Hc.
  destruct (assignment w) as [a|] eqn:Ha.
  - assert (Hheld : files_held w = get_file_names a)
      by (unfold files_held; now rewrite Ha).
    destruct (String.eqb (status_of_request req) "completed") eqn:E1.
    { apply String.eqb_eq in E1. rewrite E1. cbn [fst tasks workers String.eqb Ascii.eqb Bool.eqb].
      specialize (Hc (released w "idle" (mkEvent "completed" (details_of_request req) now))).
      rewrite held_released, cnt_nil in Hc. rewrite !cnt_app, cnt_nil. lia. }
    destruct (String.eqb (status_of_request req) "failed") eqn:E2.
    { apply String.eqb_eq in E2. rewrite E2. cbn [fst tasks workers String.eqb Ascii.eqb Bool.eqb].
      specialize (Hc (released w "failed" (mkEvent "failed" (details_of_request req) now))).
      rewrite held_released, cnt_nil in Hc. rewrite !cnt_app, cnt_nil.
      rewrite <- Hheld. lia. }
    destruct (String.eqb (status_of_request req) "processing") eqn:E3.
    { apply String.eqb_eq in E3. rewrite E3. cbn [fst tasks workers String.eqb Ascii.eqb Bool.eqb].
      specialize (Hc (restatus w "processing"
                        (mkEvent "processing" (details_of_request req) now))).
      rewrite held_restatus in Hc. rewrite !cnt_app, cnt_nil. lia. }
    destruct (String.eqb (status_of_request req) "shutting-down") eqn:E4.
    { cbn [fst tasks workers].
      specialize (Hc (released w "shutting-down"
                        (mkEvent "shutting-down" (details_of_request req) now))).
      rewrite held_released, cnt_nil in Hc. rewrite !cnt_app, cnt_nil. lia. }
    cbn [fst tasks workers].
    specialize (Hc (restatus w (status_of_request req)
                      (mkEvent (status_of_request req) (details_of_request req) now))).
    rewrite held_restatus in Hc. rewrite !cnt_app, cnt_nil. lia.
  - rewrite (held_nothing w Ha), !if_same, cnt_nil in *.
    destruct (String.eqb (status_of_request req) "shutting-down");
      cbn [fst tasks workers]; rewrite !cnt_app;
      match goal with
      | |- context [dict_set wid ?w' _] => specialize (Hc w')
      end;
      rewrite held_restatus, (held_nothing w Ha), cnt_nil in Hc; lia.
Qed.

Lemma step_conserves : forall cfg sys e x,
  admissible sys e ->
  (cnt x (in_flight (step cfg sys e))
   + cnt x (report_clears "completed" sys e)
   + cnt x (report_clears "shutting-down" sys e)
   = cnt x (in_flight sys))%nat.
Proof.
  intros cfg sys e x [_ Hfresh].
  destruct e as [wid d now|wid t1 t2|wid t1 t2|wid req now|now|];
    unfold step; cbn [report_clears]; rewrite ?cnt_nil, ?Nat.add_0_r.
  - rewrite in_flight_with_state. unfold register_worker. cbn [fst tasks workers].
    rewrite leased_dict_set_fresh by exact Hfresh.
    unfold in_flight. rewrite app_nil_r. reflexivity.
  - rewrite in_flight_with_state. apply get_assignment_conserves.
  - rewrite in_flight_with_state. apply acknowledge_assignment_conserves.
  - rewrite in_flight_with_state. apply update_status_conserves.
  - destruct (checker_alive sys); [|reflexivity].
    pose proof (timeout_items_conserves cfg now x (workers (sys_state sys))
                  (tasks (sys_state sys)) (app_logs (sys_state sys))) as Hc.
    unfold timeout_checker.
    destruct (timeout_items cfg now (workers (sys_state sys))
                (tasks (sys_state sys)) (app_logs (sys_state sys)))
      as [[[ws' pool'] logs'] raised]. cbn [fst snd] in Hc.
    unfold in_flight. cbn [sys_state tasks workers]. rewrite !cnt_app. exact Hc.
  - destruct (notifier_alive sys); [|reflexivity].
    destruct (shutdown_notifier (workers (sys_state sys))). reflexivity.
Qed.

(** Along every run whose register events carry fresh ids, the pool, the
    assignments, the tasks marked completed and the tasks a worker held when
    it reported shutting-down together are the tasks that were in flight at
    the start: the shutting-down report is the only way a task leaves the
    books. *)
Lemma run_conserves : forall cfg es sys x,
  admissible_run cfg sys es ->
  (cnt x (in_flight (run cfg sys es))
   + cnt x (completed_so_far cfg sys es)
   + cnt x (dropped_so_far cfg sys es)
   = cnt x (in_flight sys))%nat.
Proof.
  intros cfg es. induction es as [|e rest IH]; intros sys x Hadm.
  - unfold completed_so_far, dropped_so_far. cbn [run fold_left cleared_by].
    rewrite !cnt_nil. lia.
  - destruct Hadm as [He Hrest].
    pose proof (step_conserves cfg sys e x He) as Hstep.
    specialize (IH (step cfg sys e) x Hrest).
    unfold completed_so_far, dropped_so_far in *.
    cbn [run fold_left cleared_by]. fold (run cfg (step cfg sys e) rest).
    rewrite !cnt_app. lia.
Qed.

Lemma conservation_up_to_dropped : forall cfg discovered es,
  admissible_run cfg (initial discovered) es ->
  Permutation (accounted cfg discovered es
               ++ dropped_so_far cfg (initial discovered) es)
              discovered.
Proof.
  intros cfg discovered es Hadm.
  apply (Permutation_count_occ string_dec). intros x.
  pose proof (run_conserves cfg es (initial discovered) x Hadm) as H.
  unfold accounted. fold (cnt x discovered).
  change (count_occ string_dec ?l x) with (cnt x l).
  rewrite !cnt_app. unfold in_flight at 2 in H. simpl in H.
  rewrite cnt_app, cnt_nil in H. lia.
Qed.

(** * Further properties of the scheduler *)

(** ** What a sweep does to a single record, in any state *)

(** A relation between a record and what one loop iteration makes of it
    lifts to the registry before and after a whole pass, raising or not. *)
Lemma timeout_items_rel :
  forall (R : Worker -> Worker -> Prop) cfg now,
    (forall w, R w w) ->
    (forall wid w pool logs,
        R w (fst (fst (fst (timeout_worker cfg now wid (w, pool, logs)))))) ->
    forall items pool logs,
      Forall2 (fun kw kw' => fst kw' = fst kw /\ R (snd kw) (snd kw'))
              items (fst (fst (fst (timeout_items cfg now items pool logs)))).
Proof.
  intros R cfg now Hrefl Hstep items.
  assert (Hid : forall l : list (worker_id * Worker),
             Forall2 (fun kw kw' => fst kw' = fst kw /\ R (snd kw) (snd kw')) l l).
  { induction l; constructor; auto. }
  induction items as [|[wid w] rest IH]; intros pool logs; cbn [timeout_items].
  - constructor.
  - pose proof (Hstep wid w pool logs) as Hw.
    destruct (timeout_worker cfg now wid (w, pool, logs))
      as [[[w' pool'] logs'] raised]. cbn [fst] in Hw.
    destruct raised; cbn [fst].
    + constructor; [split; [reflexivity | exact Hw] | apply Hid].
    + specialize (IH pool' logs').
      destruct (timeout_items cfg now rest pool' logs')
        as [[[rest' pool''] logs''] raised']. cbn [fst] in *.
      constructor; [split; [reflexivity | exact Hw] | exact IH].
Qed.

Lemma Forall2_dict_get :
  forall (R : Worker -> Worker -> Prop) ws ws',
    Forall2 (fun kw kw' => fst kw' = fst kw /\ R (snd kw) (snd kw')) ws ws' ->
    forall wid,
      match dict_get wid ws with
      | Some w => exists w', dict_get wid ws' = Some w' /\ R w w'
      | None => dict_get wid ws' = None
      end.
Proof.
  intros R ws ws' H wid.
  induction H as [|[k w] [k' w'] rest rest' [Hk HR] Hrest IH]; simpl.
  - reflexivity.
  - simpl in Hk, HR. subst k'. destruct (String.eqb k wid); [eauto | exact IH].
Qed.

Lemma Forall2_keys :
  forall (R : Worker -> Worker -> Prop) (ws ws' : list (worker_id * Worker)),
    Forall2 (fun kw kw' => fst kw' = fst kw /\ R (snd kw) (snd kw')) ws ws' ->
    map fst ws' = map fst ws.
Proof.
  intros R ws ws' H. induction H as [|kw kw' rest rest' [Hk _] _ IH]; simpl.
  - reflexivity.
  - now rewrite Hk, IH.
Qed.

Lemma timeout_checker_keys : forall cfg now st,
  map fst (workers (fst (timeout_checker cfg now st))) = map fst (workers st).
Proof.
  intros cfg now st. unfold timeout_checker.
  pose proof (timeout_items_rel (fun _ _ => True) cfg now (fun _ => I)
                (fun _ _ _ _ => I) (workers st) (tasks st) (app_logs st)) as H.
  destruct (timeout_items cfg now (workers st) (tasks st) (app_logs st))
    as [[[ws' pool'] logs'] raised]. cbn [fst workers] in *.
  exact (Forall2_keys (fun _ _ => True) _ _ H).
Qed.

(** ** Conservation when nobody is interrupted *)

(** X1. Along every run from start-up in which no worker reports
    shutting-down while it holds files, the pool, the workers' assignments
    and the tasks reported completed together are a rearrangement of the
    discovered tasks: nothing is lost and nothing is duplicated, whatever
    requests arrive and whenever the sweeps run. *)
Theorem conservation_without_drops :
  forall cfg discovered es,
    admissible_run cfg (initial discovered) es ->
    dropped_so_far cfg (initial discovered) es = [] ->
    Permutation (accounted cfg discovered es) discovered.
Proof.
  intros cfg discovered es Hadm Hnone.
  apply (Permutation_count_occ string_dec). intros x.
  pose proof (run_conserves cfg es (initial discovered) x Hadm) as H.
  rewrite Hnone, cnt_nil in H.
  unfold accounted. fold (cnt x discovered).
  change (count_occ string_dec ?l x) with (cnt x l).
  rewrite cnt_app. unfold in_flight at 2 in H. simpl in H.
  rewrite cnt_app, cnt_nil in H. lia.
Qed.

Lemma conservation_without_drops_witness :
  Permutation (accounted cfg0 ["a.jpg"; "b.jpg"; "c.jpg"] completed_events)
              ["a.jpg"; "b.jpg"; "c.jpg"].
Proof.
  apply conservation_without_drops.
  - simpl. repeat split; repeat constructor.
  - reflexivity.
Defined.

(** ** The registry *)

Lemma extends_refl : forall w, extends w w.
Proof. intros w. split; [reflexivity|]. exists []. now rewrite app_nil_r. Qed.


Lemma extends_event : forall w w',
  details w' = details w ->
  (exists ev, history w' = history w ++ [ev]) ->
  extends w w'.
Proof. intros w w' Hd [ev Hh]. split; eauto. Qed.

Lemma Forall2_same :
  forall (R : Worker -> Worker -> Prop) (ws : list (worker_id * Worker)),
    (forall w, R w w) ->
    Forall2 (fun kw kw' => fst kw' = fst kw /\ R (snd kw) (snd kw')) ws ws.
Proof. intros R ws Hrefl. induction ws; constructor; auto. Qed.

Lemma dict_set_Forall2 :
  forall (R : Worker -> Worker -> Prop) wid w w' ws,
    (forall w, R w w) ->
    dict_get wid ws = Some w -> R w w' ->
    Forall2 (fun kw kw' => fst kw' = fst kw /\ R (snd kw) (snd kw'))
            ws (dict_set wid w' ws).
Proof.
  intros R wid w w' ws Hrefl. induction ws as [|[k w0] rest IH];
    cbn [dict_get dict_set]; intros Hget HR.
  - discriminate.
  - destruct (String.eqb k wid).
    + injection Hget as ->. constructor; [auto|].
      now apply Forall2_same.
    + constructor; [auto | now apply IH].
Qed.

Lemma get_assignment_extends : forall cfg wid t1 t2 st,
  Forall2 (fun kw kw' => fst kw' = fst kw /\ extends (snd kw) (snd kw'))
          (workers st) (workers (fst (get_assignment cfg wid t1 t2 st))).
Proof.
  intros cfg wid t1 t2 st. unfold get_assignment.
  destruct (dict_get wid (workers st)) as [w|] eqn:Hget;
    [|apply Forall2_same, extends_refl].
  destruct (assignment w); [apply Forall2_same, extends_refl|].
  destruct (all_tasks_completed (tasks st)); [|destruct (Py.truthy_list (tasks st))];
    cbn [fst workers];
    (apply (dict_set_Forall2 extends wid w); [apply extends_refl | exact Hget |]);
    apply extends_event; cbn [details history]; eauto.
Qed.

Lemma acknowledge_assignment_extends : forall wid t1 t2 st,
  Forall2 (fun kw kw' => fst kw' = fst kw /\ extends (snd kw) (snd kw'))
          (workers st) (workers (fst (acknowledge_assignment wid t1 t2 st))).
Proof.
  intros wid t1 t2 st. unfold acknowledge_assignment.
  destruct (dict_get wid (workers st)) as [w|] eqn:Hget;
    [|apply Forall2_same, extends_refl].
  destruct (negb (has_assignment w)); [apply Forall2_same, extends_refl|].
  cbn [fst workers].
  apply (dict_set_Forall2 extends wid w); [apply extends_refl | exact Hget |].
  apply extends_event; cbn [details history]; eauto.
Qed.

Lemma update_status_extends : forall wid req now st,
  Forall2 (fun kw kw' => fst kw' = fst kw /\ extends (snd kw) (snd kw'))
          (workers st) (workers (fst (update_status wid req now st))).
Proof.
  intros wid req now st. unfold update_status.
  destruct (dict_get wid (workers st)) as [w|] eqn:Hget;
    [|apply Forall2_same, extends_refl].
  destruct (assignment w);
    repeat match goal with
           | |- context [if ?b then _ else _] => destruct b
           end;
    cbn [fst workers];
    (apply (dict_set_Forall2 extends wid w); [apply extends_refl | exact Hget |]);
    apply extends_event; unfold released, restatus; cbn [details history]; eauto.
Qed.

Lemma timeout_worker_extends : forall cfg now wid w pool logs,
  extends w (fst (fst (fst (timeout_worker cfg now wid (w, pool, logs))))).
Proof.
  intros cfg now wid w pool logs.
  unfold timeout_worker, check_ack_timeout, check_processing_timeout.
  repeat match goal with
         | |- context [if ?b then _ else _] => destruct b; cbn
         | |- context [match assignment_timestamp w with _ => _ end] =>
             destruct (assignment_timestamp w); cbn
         | |- context [match processing_start w with _ => _ end] =>
             destruct (processing_start w); cbn
         | |- context [match assignment w with _ => _ end] =>
             destruct (assignment w); cbn
         end;
    first [ apply extends_refl
          | apply extends_event; cbn [details history]; eauto ].
Qed.

Lemma timeout_checker_extends : forall cfg now st,
  Forall2 (fun kw kw' => fst kw' = fst kw /\ extends (snd kw) (snd kw'))
          (workers st) (workers (fst (timeout_checker cfg now st))).
Proof.
  intros cfg now st. unfold timeout_checker.
  pose proof (timeout_items_rel extends cfg now extends_refl
                (timeout_worker_extends cfg now)
                (workers st) (tasks st) (app_logs st)) as H.
  destruct (timeout_items cfg now (workers st) (tasks st) (app_logs st))
    as [[[ws' pool'] logs'] raised]. exact H.
Qed.

(** Every event but a registration keeps each registry entry in place and
    only ever adds to its history. *)
Lemma step_extends : forall cfg sys e,
  (forall wid d now, e <> Register wid d now) ->
  Forall2 (fun kw kw' => fst kw' = fst kw /\ extends (snd kw) (snd kw'))
          (workers (sys_state sys)) (workers (sys_state (step cfg sys e))).
Proof.
  intros cfg sys e Hnr.
  destruct e as [wid d now|wid t1 t2|wid t1 t2|wid req now|now|];
    unfold step, with_state; cbn [sys_state].
  - exfalso. now apply (Hnr wid d now).
  - apply get_assignment_extends.
  - apply acknowledge_assignment_extends.
  - apply update_status_extends.
  - destruct (checker_alive sys); [|apply Forall2_same, extends_refl].
    pose proof (timeout_checker_extends cfg now (sys_state sys)) as H.
    destruct (timeout_checker cfg now (sys_state sys)) as [st' raised]. exact H.
  - destruct (notifier_alive sys); [|apply Forall2_same, extends_refl].
    destruct (shutdown_notifier (workers (sys_state sys))).
    apply Forall2_same, extends_refl.
Qed.

Lemma dict_set_fresh : forall wid w ws,
  dict_get wid ws = None -> dict_set wid w ws = ws ++ [(wid, w)].
Proof.
  intros wid w ws. induction ws as [|[k w0] rest IH];
    cbn [dict_get dict_set]; intros H.
  - reflexivity.
  - destruct (String.eqb k wid); [discriminate|]. simpl. now rewrite IH.
Qed.

Lemma dict_get_none_keys : forall wid ws,
  dict_get wid ws = None <-> ~ In wid (map fst ws).
Proof.
  intros wid ws. induction ws as [|[k w0] rest IH]; simpl.
  - tauto.
  - destruct (String.eqb k wid) eqn:E.
    + apply String.eqb_eq in E. subst k. split; [discriminate | tauto].
    + apply String.eqb_neq in E. rewrite IH. tauto.
Qed.

Lemma step_keys : forall cfg sys e,
  map fst (workers (sys_state (step cfg sys e)))
  = map fst (workers (sys_state sys)) ++ new_ids sys e.
Proof.
  intros cfg sys e.
  destruct e as [wid d now| | | | |];
    try (cbn [new_ids]; rewrite app_nil_r;
         apply (Forall2_keys extends), step_extends; discriminate).
  unfold step, with_state, register_worker, new_ids. cbn [sys_state fst workers].
  destruct (dict_get wid (workers (sys_state sys))) as [w0|] eqn:Hget.
  - rewrite app_nil_r. now apply dict_set_keys with (w0 := w0).
  - rewrite dict_set_fresh by assumption. rewrite map_app. reflexivity.
Qed.






(** ** Unknown ids *)

Lemma step_unknown : forall cfg sys e wid,
  dict_get wid (workers (sys_state sys)) = None ->
  not_register wid e ->
  dict_get wid (workers (sys_state (step cfg sys e))) = None.
Proof.
  intros cfg sys e wid Hnone Hnr.
  apply dict_get_none_keys. rewrite step_keys. intros Hin.
  apply in_app_or in Hin. destruct Hin as [Hin|Hin].
  - now apply dict_get_none_keys in Hnone.
  - destruct e; cbn [new_ids] in Hin; try contradiction.
    destruct (dict_get wid0 (workers (sys_state sys))); [contradiction|].
    destruct Hin as [->|[]]. now apply Hnr.
Qed.

(** X5. Only a registration makes an id known.  If [wid] is not registered
    and a run registers other ids only, then after the run [wid] is still
    not registered, and a poll, an acknowledgement or a status report for it
    is answered with the NotRegistered error and changes nothing. *)
Theorem unknown_worker_stays_unknown :
  forall cfg es sys wid,
    dict_get wid (workers (sys_state sys)) = None ->
    Forall (not_register wid) es ->
    let st := sys_state (run cfg sys es) in
    dict_get wid (workers st) = None /\
    (forall t1 t2, get_assignment cfg wid t1 t2 st = (st, NotRegistered)) /\
    (forall t1 t2, acknowledge_assignment wid t1 t2 st = (st, NotRegistered)) /\
    (forall req now, update_status wid req now st = (st, NotRegistered)).
Proof.
  intros cfg es sys wid Hnone Hall st.
  assert (Hst : dict_get wid (workers st) = None).
  { subst st. revert sys Hnone.
    induction Hall as [|e rest He Hrest IH]; intros sys Hnone; [exact Hnone|].
    cbn [run fold_left]. apply IH. now apply step_unknown. }
  split; [exact Hst|].
  unfold get_assignment, acknowledge_assignment, update_status.
  rewrite Hst. repeat split.
Qed.

Lemma unknown_worker_stays_unknown_witness :
  dict_get "w9" (workers (sys_state (run cfg0 leased_system stalled_events)))
  = None.
Proof.
  apply (unknown_worker_stays_unknown cfg0 stalled_events leased_system "w9").
  - reflexivity.
  - repeat constructor.
Defined.

(** ** Records the sweep passes by *)

Lemma timeout_worker_exempt : forall cfg now wid w pool logs,
  sweep_exempt w = true ->
  timeout_worker cfg now wid (w, pool, logs) = ((w, pool, logs), false).
Proof.
  intros cfg now wid w pool logs H. unfold sweep_exempt in H.
  apply andb_true_iff in H. destruct H as [H1 H2].
  apply negb_true_iff in H1, H2.
  unfold timeout_worker, check_ack_timeout, check_processing_timeout.
  now rewrite H1, H2.
Qed.

Lemma timeout_checker_exempt : forall cfg now st wid w,
  dict_get wid (workers st) = Some w ->
  sweep_exempt w = true ->
  dict_get wid (workers (fst (timeout_checker cfg now st))) = Some w.
Proof.
  intros cfg now st wid w Hget Hex. unfold timeout_checker.
  pose proof (timeout_items_rel
                (fun w w' => sweep_exempt w = true -> w' = w) cfg now
                (fun _ _ => eq_refl)) as H.
  specialize (H (fun wid w pool logs Hw =>
                   f_equal (fun r => fst (fst (fst r)))
                           (timeout_worker_exempt cfg now wid w pool logs Hw))
                (workers st) (tasks st) (app_logs st)).
  destruct (timeout_items cfg now (workers st) (tasks st) (app_logs st))
    as [[[ws' pool'] logs'] raised]. cbn [fst workers] in *.
  pose proof (Forall2_dict_get (fun w w' => sweep_exempt w = true -> w' = w)
                _ _ H wid) as Hd.
  rewrite Hget in Hd.
  destruct Hd as (w' & Hget' & Hsame). now rewrite (Hsame Hex) in Hget'.
Qed.

Lemma sweeps_exempt : forall cfg nows sys wid w,
  dict_get wid (workers (sys_state sys)) = Some w ->
  sweep_exempt w = true ->
  dict_get wid (workers (sys_state (run cfg sys (map TimeoutPass nows))))
  = Some w.
Proof.
  intros cfg nows. induction nows as [|now rest IH]; intros sys wid w Hget Hex.
  - exact Hget.
  - cbn [map run fold_left]. apply IH; [|exact Hex].
    unfold step. destruct (checker_alive sys); [|exact Hget].
    pose proof (timeout_checker_exempt cfg now (sys_state sys) wid w Hget Hex) as H.
    destruct (timeout_checker cfg now (sys_state sys)) as [st' raised]. exact H.
Qed.

(** X6. On an empty pool a registered worker without an assignment is
    handed the shutdown directive: its status becomes shutdown, no ack
    deadline is set, the pool stays empty, and no sweep pass, at whatever
    clock reading, ever takes the directive back. *)
Theorem shutdown_directive_on_empty_pool :
  forall cfg sys wid w t1 t2 nows,
    dict_get wid (workers (sys_state sys)) = Some w ->
    assignment w = None ->
    tasks (sys_state sys) = [] ->
    let directed :=
      {| status := "shutdown";
         details := details w;
         assignment := Some ShutdownDirective;
         assignment_timestamp := assignment_timestamp w;
         processing_start := processing_start w;
         history := history w
           ++ [mkEvent "shutdown" (DetailsAssignment ShutdownDirective) t1] |} in
    let sys' := step cfg sys (GetAssignment wid t1 t2) in
    snd (get_assignment cfg wid t1 t2 (sys_state sys))
      = RespAssignment ShutdownDirective /\
    tasks (sys_state sys') = [] /\
    dict_get wid (workers (sys_state sys')) = Some directed /\
    dict_get wid (workers (sys_state (run cfg sys' (map TimeoutPass nows))))
      = Some directed.
Proof.
  intros cfg sys wid w t1 t2 nows Hget Ha Hempty directed sys'.
  assert (Hstep : get_assignment cfg wid t1 t2 (sys_state sys)
                  = (mkState [] (dict_set wid directed (workers (sys_state sys)))
                             (app_logs (sys_state sys)),
                     RespAssignment ShutdownDirective)).
  { unfold get_assignment. rewrite Hget, Ha, Hempty. reflexivity. }
  assert (Hget' : dict_get wid (workers (sys_state sys')) = Some directed).
  { subst sys'. unfold step, with_state. cbn [sys_state]. rewrite Hstep.
    cbn [fst workers]. apply dict_get_set_same. }
  split; [now rewrite Hstep|]. split; [|split; [exact Hget'|]].
  - subst sys'. unfold step, with_state. cbn [sys_state]. now rewrite Hstep.
  - apply sweeps_exempt; [exact Hget' | reflexivity].
Qed.

Lemma shutdown_directive_on_empty_pool_witness :
  snd (get_assignment cfg0 "w1" 130 130 (sys_state drained_system))
  = RespAssignment ShutdownDirective.
Proof.
  apply (shutdown_directive_on_empty_pool cfg0 drained_system "w1" gone_worker
           130 130 [200; 900] eq_refl eq_refl eq_refl).
Defined.

(** ** Heartbeats *)

Lemma heartbeat_record : forall wid req now st w a,
  dict_get wid (workers st) = Some w ->
  assignment w = Some a ->
  status_of_request req = "processing" ->
  fst (update_status wid req now st)
  = mkState (tasks st)
      (dict_set wid
         (restatus w "processing" (mkEvent "processing" (details_of_request req) now))
         (workers st))
      (app_logs st).
Proof.
  intros wid req now st w a Hget Ha Hs. unfold update_status.
  now rewrite Hget, Ha, Hs.
Qed.

(** X7. A worker that was handed an assignment and sends the processing
    heartbeat without having acknowledged (its processing start is unset)
    is out of reach of the sweep: its status is processing, so the ack
    check passes it by, and it has no processing start, so the processing
    check passes it by.  Whatever the clock reads in later sweep passes, it
    keeps its assignment. *)
Theorem unacknowledged_heartbeat_escapes_sweep :
  forall cfg sys wid w a req now nows,
    dict_get wid (workers (sys_state sys)) = Some w ->
    assignment w = Some a ->
    processing_start w = None ->
    status_of_request req = "processing" ->
    let sys' := step cfg sys (ReportStatus wid req now) in
    dict_get wid (workers (sys_state (run cfg sys' (map TimeoutPass nows))))
    = Some {| status := "processing";
              details := details w;
              assignment := Some a;
              assignment_timestamp := assignment_timestamp w;
              processing_start := None;
              history := history w
                ++ [mkEvent "processing" (details_of_request req) now] |}.
Proof.
  intros cfg sys wid w a req now nows Hget Ha Hps Hs sys'.
  apply sweeps_exempt.
  - subst sys'. unfold step, with_state. cbn [sys_state].
    rewrite (heartbeat_record wid req now _ w a Hget Ha Hs). cbn [workers].
    rewrite dict_get_set_same. unfold restatus. now rewrite Ha, Hps.
  - reflexivity.
Qed.

Lemma unacknowledged_heartbeat_escapes_sweep_witness :
  option_map (fun w => (status w, assignment w))
    (dict_get "w1"
       (workers (sys_state
          (run cfg0 (step cfg0 leased_system unacked_heartbeat)
             (map TimeoutPass [200; 5000; 1000000])))))
  = Some ("processing", Some (batch_of ["a.jpg"; "b.jpg"; "c.jpg"])).
Proof.
  unfold unacked_heartbeat.
  rewrite (unacknowledged_heartbeat_escapes_sweep cfg0 leased_system "w1" _ _
             (mkStatusRequest (Some "processing") (Some "{}")) 105
             [200; 5000; 1000000] eq_refl eq_refl eq_refl eq_refl).
  reflexivity.
Defined.





(** ** A pass repeated at the same clock reading *)

Lemma timeout_worker_again : forall cfg now wid w pool logs pool2 logs2,
  timeout_worker cfg now wid
    (fst (fst (fst (timeout_worker cfg now wid (w, pool, logs)))), pool2, logs2)
  = ((fst (fst (fst (timeout_worker cfg now wid (w, pool, logs)))), pool2, logs2),
     snd (timeout_worker cfg now wid (w, pool, logs))).
Proof.
  intros cfg now wid w pool logs pool2 logs2.
  assert (Hexcl : String.eqb (status w) "waiting_ack" = true ->
                  String.eqb (status w) "processing" = false).
  { intros H. apply String.eqb_eq in H. now rewrite H. }
  unfold timeout_worker, check_ack_timeout, check_processing_timeout.
  destruct (String.eqb (status w) "waiting_ack") eqn:E1;
    [pose proof (Hexcl eq_refl) as E2
    | destruct (String.eqb (status w) "processing") eqn:E2];
    destruct (assignment_timestamp w) as [ts|] eqn:E3;
    destruct (processing_start w) as [ps|] eqn:E4;
    destruct (assignment w) as [a|] eqn:E5;
    cbn [andb Py.truthy_num fst snd];
    try (destruct (negb (ts =? 0)) eqn:E6);
    try (destruct (now - ts >? ACK_TIMEOUT cfg) eqn:E7);
    try (destruct (negb (ps =? 0)) eqn:E8);
    try (destruct (now - ps >? PROCESSING_TIMEOUT cfg) eqn:E9);
    repeat (progress
              (rewrite ?E1, ?E2, ?E3, ?E4, ?E5, ?E6, ?E7, ?E8, ?E9;
               cbn [andb Py.truthy_num fst snd status assignment
                    assignment_timestamp processing_start
                    String.eqb Ascii.eqb Bool.eqb]));
    reflexivity.
Qed.

Lemma timeout_items_again : forall cfg now items pool logs pool2 logs2,
  timeout_items cfg now
    (fst (fst (fst (timeout_items cfg now items pool logs)))) pool2 logs2
  = (fst (fst (fst (timeout_items cfg now items pool logs))), pool2, logs2,
     snd (timeout_items cfg now items pool logs)).
Proof.
  intros cfg now items. induction items as [|[wid w] rest IH];
    intros pool logs pool2 logs2; cbn [timeout_items].
  - reflexivity.
  - pose proof (timeout_worker_again cfg now wid w pool logs pool2 logs2) as Hw.
    destruct (timeout_worker cfg now wid (w, pool, logs))
      as [[[w' pool'] logs'] raised]. cbn [fst snd] in Hw.
    destruct raised.
    + cbn [fst snd]. cbn [timeout_items]. now rewrite Hw.
    + specialize (IH pool' logs' pool2 logs2).
      destruct (timeout_items cfg now rest pool' logs')
        as [[[rest' pool''] logs''] raised']. cbn [fst snd] in *.
      cbn [timeout_items]. now rewrite Hw, IH.
Qed.

(** X9. A sweep pass repeated at the same clock reading does nothing: the
    second pass returns the state the first one left, pool and log
    included, and ends the way the first one ended. *)
Theorem timeout_checker_idempotent :
  forall cfg now st,
    timeout_checker cfg now (fst (timeout_checker cfg now st))
    = timeout_checker cfg now st.
Proof.
  intros cfg now st. unfold timeout_checker.
  pose proof (timeout_items_again cfg now (workers st) (tasks st) (app_logs st))
    as H.
  destruct (timeout_items cfg now (workers st) (tasks st) (app_logs st))
    as [[[ws' pool'] logs'] raised]. cbn [fst snd workers tasks app_logs] in *.
  now rewrite H.
Qed.

(** ** The pool as a queue *)

Lemma timeout_items_appends : forall cfg now items pool logs,
  exists extra,
    snd (fst (fst (timeout_items cfg now items pool logs))) = pool ++ extra.
Proof.
  intros cfg now items. induction items as [|[wid w] rest IH];
    intros pool logs; cbn [timeout_items].
  - exists []. cbn [fst snd]. now rewrite app_nil_r.
  - destruct (timeout_worker_conserves cfg now wid w pool logs) as (fs & Hpool & _).
    destruct (timeout_worker cfg now wid (w, pool, logs))
      as [[[w' pool'] logs'] raised]. cbn [fst snd] in Hpool. subst pool'.
    destruct raised; cbn [fst snd]; [eauto|].
    destruct (IH (pool ++ fs) logs') as [extra Hextra].
    destruct (timeout_items cfg now rest (pool ++ fs) logs')
      as [[[rest' pool''] logs''] raised']. cbn [fst snd] in *.
    exists (fs ++ extra). now rewrite Hextra, app_assoc.
Qed.

(** X10. The pool is a queue under every event: a step either takes tasks
    off the front (only a poll does, and it adds nothing) or appends tasks
    at the back; pending tasks are never reordered and never overtaken by
    returned ones. *)
Theorem pool_is_a_queue :
  forall cfg sys e,
    exists n added,
      tasks (sys_state (step cfg sys e))
      = skipn n (tasks (sys_state sys)) ++ added /\
      ((exists wid t1 t2, e = GetAssignment wid t1 t2) /\ added = []
       \/ n = 0%nat).
Proof.
  intros cfg sys e.
  destruct e as [wid d now|wid t1 t2|wid t1 t2|wid req now|now|];
    unfold step, with_state; cbn [sys_state].
  - exists 0%nat, []. cbn. rewrite app_nil_r. auto.
  - unfold get_assignment.
    destruct (dict_get wid (workers (sys_state sys))) as [w|];
      [|exists 0%nat, []; cbn; rewrite app_nil_r; eauto 6].
    destruct (assignment w);
      [exists 0%nat, []; cbn; rewrite app_nil_r; eauto 6|].
    destruct (all_tasks_completed (tasks (sys_state sys)));
      [exists 0%nat, []; cbn; rewrite app_nil_r; eauto 6|].
    destruct (Py.truthy_list (tasks (sys_state sys)));
      [|exists 0%nat, []; cbn; rewrite app_nil_r; eauto 6].
    exists (Py.stop_index (BATCH_SIZE cfg) (tasks (sys_state sys))), [].
    cbn [fst tasks]. unfold Py.del_to. rewrite app_nil_r.
    split; [reflexivity|]. left. split; [|reflexivity]. now exists wid, t1, t2.
  - exists 0%nat, []. unfold acknowledge_assignment.
    destruct (dict_get wid (workers (sys_state sys))) as [w|];
      [destruct (negb (has_assignment w))|];
      cbn; rewrite app_nil_r; auto.
  - exists 0%nat. unfold update_status.
    destruct (dict_get wid (workers (sys_state sys))) as [w|];
      [|exists []; cbn; rewrite app_nil_r; auto].
    destruct (assignment w) as [a|];
      repeat match goal with
             | |- context [if ?b then _ else _] => destruct b
             end;
      cbn [fst tasks skipn];
      first [ exists []; rewrite app_nil_r; now auto
            | exists (get_file_names a); now auto ].
  - destruct (checker_alive sys);
      [|exists 0%nat, []; cbn; rewrite app_nil_r; auto].
    destruct (timeout_items_appends cfg now (workers (sys_state sys))
                (tasks (sys_state sys)) (app_logs (sys_state sys)))
      as [extra Hextra].
    unfold timeout_checker.
    destruct (timeout_items cfg now (workers (sys_state sys))
                (tasks (sys_state sys)) (app_logs (sys_state sys)))
      as [[[ws' pool'] logs'] raised]. cbn [fst snd] in Hextra.
    exists 0%nat, extra. cbn [sys_state tasks skipn]. auto.
  - exists 0%nat, []. destruct (notifier_alive sys);
      [destruct (shutdown_notifier (workers (sys_state sys)))|];
      cbn; rewrite app_nil_r; auto.
Qed.

(** ** Status strings *)

Lemma lower_ascii_idempotent : forall c,
  Py.lower_ascii (Py.lower_ascii c) = Py.lower_ascii c.
Proof. intros [[] [] [] [] [] [] [] []]; reflexivity. Qed.

Lemma lower_idempotent : forall s, Py.lower (Py.lower s) = Py.lower s.
Proof.
  induction s as [|c s IH]; simpl; [reflexivity|].
  now rewrite lower_ascii_idempotent, IH.
Qed.

(** X11. Status reports are read without regard to letter case, and a
    report without a status key is read as the empty status: the handler
    does exactly the same for a status string as for its lower-case form,
    and for a missing status as for the empty string. *)
Theorem update_status_case_insensitive :
  forall wid s d now st,
    update_status wid (mkStatusRequest (Some s) d) now st
    = update_status wid (mkStatusRequest (Some (Py.lower s)) d) now st /\
    update_status wid (mkStatusRequest None d) now st
    = update_status wid (mkStatusRequest (Some EmptyString) d) now st.
Proof.
  intros wid s d now st. unfold update_status, status_of_request, details_of_request.
  cbn [req_status req_details]. rewrite lower_idempotent. split; reflexivity.
Qed.

(** ** Reports from a worker that holds nothing *)



(** ** Lease timestamps *)

(** X13. In every state the scheduler can reach the sweep thread is still
    running (no pass has raised), and the timestamps of every record agree
    with its lease: an assignment timestamp is a clock reading, stands only
    on a record that holds an assignment, and never together with a
    processing start; a processing start is a clock reading and stands only
    on a record that holds an assignment. *)
Theorem lease_timestamps_consistent :
  forall cfg discovered sys,
    reachable cfg discovered sys ->
    checker_alive sys = true /\
    forall wid w,
      In (wid, w) (workers (sys_state sys)) ->
      (forall ts, assignment_timestamp w = Some ts ->
                  0 < ts /\ (exists a, assignment w = Some a) /\
                  processing_start w = None) /\
      (forall ps, processing_start w = Some ps ->
                  0 < ps /\ exists a, assignment w = Some a).
Proof.
  intros cfg discovered sys Hreach.
  destruct (reachable_inv _ _ _ Hreach) as [Halive Hsound].
  split; [exact Halive|]. intros wid w Hin.
  unfold sound_workers in Hsound. rewrite Forall_forall in Hsound.
  destruct (Hsound _ Hin) as [Hats Hps]. cbn [snd] in Hats, Hps. split.
  - intros ts Hts. destruct (Hats ts Hts) as (Hpos & Hasg & Hnone).
    repeat split; try assumption.
    destruct (assignment w) as [a|]; [eauto | congruence].
  - intros ps Hp. destruct (Hps ps Hp) as (Hpos & Hasg).
    split; [assumption|].
    destruct (assignment w) as [a|]; [eauto | congruence].
Qed.

Lemma lease_timestamps_consistent_witness :
  checker_alive (run cfg0 leased_system stalled_events) = true.
Proof.
  apply (lease_timestamps_consistent cfg0 ["a.jpg"; "b.jpg"; "c.jpg"]).
  apply reachable_run; [exact leased_system_reachable|].
  simpl. repeat split; repeat constructor.
Defined.

(** * Start-up discovery *)

(** ** Splitting strings *)

Lemma contains_slash_cons : forall c r,
  PyStr.contains "/" (String c r) = false ->
  Ascii.eqb c "/" = false /\ PyStr.contains "/" r = false.
Proof.
  intros c r H. cbn [PyStr.contains String.prefix] in H.
  destruct (ascii_dec "/" c) as [<-|Hne].
  - destruct r; discriminate.
  - split; [|exact H]. apply Ascii.eqb_neq. congruence.
Qed.

Lemma split1_round_trip : forall b k,
  PyStr.contains "/" b = false ->
  PyStr.split1 "/" (String.append b (String "/" k)) = [b; k] /\
  PyStr.split1 "/" b = [b].
Proof.
  induction b as [|c r IH]; intros k H.
  - split; reflexivity.
  - destruct (contains_slash_cons c r H) as [Hc Hr].
    destruct (IH k Hr) as [IH1 IH2].
    cbn [String.append PyStr.split1]. rewrite Hc, IH1, IH2. split; reflexivity.
Qed.

Lemma split1_first_no_slash : forall s,
  PyStr.contains "/" (PyStr.first (PyStr.split1 "/" s)) = false.
Proof.
  induction s as [|c r IH]; [reflexivity|].
  cbn [PyStr.split1]. destruct (Ascii.eqb c "/") eqn:Hc; [reflexivity|].
  assert (Hd : PyStr.contains "/" (String c (PyStr.first (PyStr.split1 "/" r)))
               = false).
  { cbn [PyStr.contains String.prefix].
    destruct (ascii_dec "/" c) as [<-|Hne]; [discriminate Hc | exact IH]. }
  destruct (PyStr.split1 "/" r) as [|h t]; exact Hd.
Qed.

(** X14. [parse_s3_path] undoes the s3 URL of a bucket and a key: for a
    bucket name without a slash, the URL made of the scheme, the bucket, a
    slash and any key parses to that bucket and that key, and the URL of
    the bucket alone parses to the bucket and the empty prefix.  Whatever
    the input, the bucket it returns holds no slash. *)
Theorem parse_s3_path_round_trip :
  (forall bucket key,
      PyStr.contains "/" bucket = false ->
      parse_s3_path (String.append "s3://" (String.append bucket (String "/" key)))
      = (bucket, key) /\
      parse_s3_path (String.append "s3://" bucket) = (bucket, EmptyString)) /\
  (forall s3_path, PyStr.contains "/" (fst (parse_s3_path s3_path)) = false).
Proof.
  split.
  - intros bucket key H. destruct (split1_round_trip bucket key H) as [H1 H2].
    unfold parse_s3_path.
    assert (Hp : forall x,
               PyStr.startswith "s3://" (String.append "s3://" x) = true)
      by (intros x; unfold PyStr.startswith; simpl; now destruct x).
    rewrite !Hp. cbn [String.length PyStr.drop String.append].
    rewrite H1, H2. split; reflexivity.
  - intros s3_path. unfold parse_s3_path. cbn [fst].
    apply split1_first_no_slash.
Qed.

Lemma parse_s3_path_round_trip_witness :
  parse_s3_path "s3://bucket_default.main/configuration/config.json"
  = ("bucket_default.main", "configuration/config.json").
Proof.
  apply (proj1 parse_s3_path_round_trip
           "bucket_default.main" "configuration/config.json" eq_refl).
Defined.

(** ** The scan *)

Lemma is_file_key_skip : forall key,
  (PyStr.endswith "/" key || negb (PyStr.contains "." key)) = negb (is_file_key key).
Proof.
  intros key. unfold is_file_key.
  destruct (PyStr.endswith "/" key), (PyStr.contains "." key); reflexivity.
Qed.

Lemma input_keys_filter : forall keys acc,
  input_keys keys acc = acc ++ filter is_file_key keys.
Proof.
  induction keys as [|key rest IH]; intros acc; cbn [input_keys filter].
  - now rewrite app_nil_r.
  - rewrite is_file_key_skip. destruct (is_file_key key); cbn [negb].
    + rewrite IH, <- app_assoc. reflexivity.
    + apply IH.
Qed.

Lemma input_pages_keys_filter : forall pages acc,
  input_pages_keys pages acc = acc ++ filter is_file_key (listed pages).
Proof.
  induction pages as [|[keys|] rest IH]; intros acc;
    cbn [input_pages_keys listed flat_map].
  - now rewrite app_nil_r.
  - fold (listed rest). rewrite IH, input_keys_filter, filter_app, app_assoc.
    reflexivity.
  - fold (listed rest). apply IH.
Qed.

Lemma mem_str : forall x s, existsb (String.eqb x) s = true <-> In x s.
Proof.
  intros x s. rewrite existsb_exists. split.
  - intros (y & Hin & Heq). apply String.eqb_eq in Heq. now subst.
  - intros H. exists x. split; [exact H | apply String.eqb_refl].
Qed.

Lemma set_add_str_in : forall x y s,
  In x (set_add_str y s) <-> x = y \/ In x s.
Proof.
  intros x y s. unfold set_add_str.
  destruct (existsb (String.eqb y) s) eqn:E.
  - apply mem_str in E. split; [auto | intros [->|H]; assumption].
  - rewrite in_app_iff. simpl. split; intros [H|H]; auto.
    + destruct H as [H|[]]; auto.
Qed.

Lemma length_zero : forall s, (String.length s =? 0)%nat = true <-> s = EmptyString.
Proof.
  intros [|c r]; simpl; split; intros H; try reflexivity; discriminate.
Qed.

Lemma processed_in_keys_in : forall x keys acc,
  In x (processed_in_keys keys acc)
  <-> In x acc \/
      exists out, In out keys /\ base_name_of out <> EmptyString /\
                  numeric_prefix (base_name_of out) = x.
Proof.
  intros x keys. induction keys as [|key rest IH]; intros acc;
    cbn [processed_in_keys].
  - split; [auto | intros [H|(out & [] & _)]; exact H].
  - destruct (String.length (base_name_of key) =? 0)%nat eqn:E.
    + apply length_zero in E. rewrite IH. split.
      * intros [H|(out & Hin & Hne & Hx)]; [auto|].
        right. exists out. simpl. auto.
      * intros [H|(out & [<-|Hin] & Hne & Hx)]; [auto | congruence |].
        right. exists out. auto.
    + assert (Hne : base_name_of key <> EmptyString).
      { intros H. apply length_zero in H. congruence. }
      rewrite IH, !set_add_str_in. split.
      * intros [[->|[->|H]]|(out & Hin & Hn & Hx)]; auto;
          right; [exists key | exists key | exists out]; simpl; auto.
      * intros [H|(out & [<-|Hin] & Hn & Hx)]; auto.
        right. exists out. auto.
Qed.

Lemma processed_in_pages_in : forall x pages acc,
  In x (processed_in_pages pages acc)
  <-> In x acc \/
      exists out, In out (listed pages) /\ base_name_of out <> EmptyString /\
                  numeric_prefix (base_name_of out) = x.
Proof.
  intros x pages. induction pages as [|[keys|] rest IH]; intros acc;
    cbn [processed_in_pages listed flat_map].
  - split; [auto | intros [H|(out & [] & _)]; exact H].
  - fold (listed rest). rewrite IH, processed_in_keys_in. split.
    + intros [[H|(out & Hin & Hn & Hx)]|(out & Hin & Hn & Hx)]; auto;
        right; exists out; rewrite in_app_iff; auto.
    + intros [H|(out & Hin & Hn & Hx)]; auto.
      apply in_app_or in Hin. destruct Hin as [Hin|Hin];
        [left; right | right]; exists out; auto.
  - fold (listed rest). apply IH.
Qed.

Lemma filter_processed_filter : forall input_tasks processed acc logs,
  fst (filter_processed input_tasks processed acc logs)
  = acc ++ filter (fun t => negb (existsb
                                    (String.eqb (numeric_prefix (base_name_of t)))
                                    processed))
                  input_tasks.
Proof.
  induction input_tasks as [|t rest IH]; intros processed acc logs;
    cbn [filter_processed filter].
  - cbn [fst]. now rewrite app_nil_r.
  - destruct (negb (existsb (String.eqb (numeric_prefix (base_name_of t)))
                      processed)).
    + rewrite IH, <- app_assoc. reflexivity.
    + apply IH.
Qed.

(** X15. What [scan_s3_for_tasks] discovers is the input listing, in
    listing order and with its multiplicities, with some keys left out.
    A key is kept exactly when it is a file key (it does not end with a
    slash and holds a dot) and no key of the output listing with a
    non-empty file name has the numeric prefix of its file name; pages
    without contents are passed over. *)
Theorem scan_s3_for_tasks_spec :
  forall cfg input_pages output_pages logs,
    let found := fst (scan_s3_for_tasks cfg input_pages output_pages logs) in
    (exists keep, found = filter keep (listed input_pages)) /\
    (forall t,
        In t found <->
        In t (listed input_pages) /\ is_file_key t = true /\
        ~ has_output (listed output_pages) t).
Proof.
  intros cfg input_pages output_pages logs found.
  set (processed := list_processed_file_numbers output_pages).
  set (fresh := fun t => negb (existsb
                                 (String.eqb (numeric_prefix (base_name_of t)))
                                 processed)).
  assert (Hfound : found = filter fresh (filter is_file_key (listed input_pages))).
  { subst found. unfold scan_s3_for_tasks.
    rewrite filter_processed_filter, input_pages_keys_filter. reflexivity. }
  assert (Hfresh : forall t, fresh t = true <-> ~ has_output (listed output_pages) t).
  { intros t. subst fresh. cbn beta. rewrite negb_true_iff.
    rewrite <- not_true_iff_false, mem_str.
    subst processed. unfold list_processed_file_numbers.
    rewrite processed_in_pages_in. unfold has_output. split.
    - intros H Hout. apply H. now right.
    - intros H [[]|Hout]. now apply H. }
  split.
  - exists (fun t => is_file_key t && fresh t). rewrite Hfound.
    clear. induction (listed input_pages) as [|t l IH]; [reflexivity|].
    cbn [filter]. destruct (is_file_key t); cbn [filter andb];
      [destruct (fresh t)|]; now rewrite IH.
  - intros t. rewrite Hfound, !filter_In, Hfresh. tauto.
Qed.

(** ** File names and numeric prefixes *)

Lemma contains_char_cons : forall sep c r,
  PyStr.contains (String sep EmptyString) (String c r) = false ->
  Ascii.eqb c sep = false /\ PyStr.contains (String sep EmptyString) r = false.
Proof.
  intros sep c r H. cbn [PyStr.contains String.prefix] in H.
  destruct (ascii_dec sep c) as [<-|Hne].
  - destruct r; discriminate.
  - split; [|exact H]. apply Ascii.eqb_neq. congruence.
Qed.

Lemma split_nonempty : forall sep s, PyStr.split sep s <> [].
Proof.
  intros sep s. destruct s as [|c r]; cbn [PyStr.split]; [discriminate|].
  destruct (Ascii.eqb c sep); [discriminate|].
  destruct (PyStr.split sep r); discriminate.
Qed.

Lemma split_append : forall sep a b,
  PyStr.split sep (String.append a (String sep b))
  = PyStr.split sep a ++ PyStr.split sep b.
Proof.
  intros sep a b. induction a as [|c r IH]; cbn [String.append PyStr.split].
  - now rewrite Ascii.eqb_refl.
  - destruct (Ascii.eqb c sep); [now rewrite IH|].
    rewrite IH. pose proof (split_nonempty sep r) as Hne.
    destruct (PyStr.split sep r) as [|h t]; [congruence | reflexivity].
Qed.

Lemma split_whole : forall sep s,
  PyStr.contains (String sep EmptyString) s = false ->
  PyStr.split sep s = [s].
Proof.
  intros sep s. induction s as [|c r IH]; intros H; [reflexivity|].
  destruct (contains_char_cons sep c r H) as [Hc Hr].
  cbn [PyStr.split]. now rewrite Hc, (IH Hr).
Qed.

Lemma final_app : forall l1 l2,
  l2 <> [] -> PyStr.final (l1 ++ l2) = PyStr.final l2.
Proof.
  intros l1 l2 Hne. unfold PyStr.final. induction l1 as [|x l1 IH]; [reflexivity|].
  cbn [app last]. rewrite IH.
  destruct (l1 ++ l2) eqn:E; [|reflexivity].
  apply app_eq_nil in E. destruct E; congruence.
Qed.

Lemma base_name_under : forall dir name,
  PyStr.contains "/" name = false ->
  base_name_of (String.append dir (String "/" name)) = name /\
  base_name_of name = name.
Proof.
  intros dir name H. unfold base_name_of.
  rewrite split_append, final_app by apply split_nonempty.
  now rewrite (split_whole "/" name H).
Qed.

Lemma numeric_prefix_stem : forall stem rest,
  PyStr.contains "." stem = false ->
  numeric_prefix (String.append stem (String "." rest)) = stem.
Proof.
  intros stem rest H. unfold numeric_prefix.
  now rewrite split_append, (split_whole "." stem H).
Qed.

Lemma endswith_slash : forall a,
  PyStr.endswith "/" a = true -> exists a', a = String.append a' "/".
Proof.
  intros a H. unfold PyStr.endswith in H. apply andb_true_iff in H.
  destruct H as [_ H]. apply String.eqb_eq in H. cbn [String.length] in H.
  induction a as [|c r IH]; [discriminate|].
  cbn [String.length] in H. rewrite Nat.sub_succ, Nat.sub_0_r in H.
  destruct r as [|c' r'].
  - cbn in H. exists EmptyString. exact H.
  - cbn [String.length PyStr.drop] in H, IH.
    rewrite Nat.sub_succ, Nat.sub_0_r in IH.
    destruct (IH H) as [a' Ha']. exists (String c a'). cbn. now rewrite <- Ha'.
Qed.

Lemma base_name_joined : forall prefix name,
  PyStr.contains "/" name = false ->
  base_name_of (PyStr.path_join prefix name) = name.
Proof.
  intros prefix name H. unfold PyStr.path_join.
  assert (Hstart : PyStr.startswith "/" name = false).
  { unfold PyStr.startswith. destruct name as [|c r]; [reflexivity|].
    cbn [PyStr.contains] in H. now destruct (String.prefix "/" (String c r)). }
  rewrite Hstart.
  destruct (String.length prefix =? 0)%nat eqn:Elen.
  - apply length_zero in Elen. subst prefix. cbn [orb String.append].
    now apply (base_name_under EmptyString).
  - cbn [orb]. destruct (PyStr.endswith "/" prefix) eqn:Eend.
    + destruct (endswith_slash prefix Eend) as [p' ->].
      replace (String.append (String.append p' "/") name)
        with (String.append p' (String "/" name)).
      * now apply base_name_under.
      * clear. induction p' as [|c r IH]; [reflexivity|]. cbn. now rewrite IH.
    + now apply base_name_under.
Qed.

(** X16. Results that follow the naming the code assumes are found again
    after a restart.  If the output listing holds the key a worker uploads
    for the result file [stem.result] (the output prefix joined with the
    file name), then no input key whose file name is [stem.ext], in
    whatever folder, is discovered as a task; [stem] is any string without
    dot and slash, and the two extensions are free of slashes. *)
Theorem processed_inputs_are_skipped :
  forall cfg input_pages output_pages logs dir stem ext result,
    PyStr.contains "/" stem = false ->
    PyStr.contains "." stem = false ->
    PyStr.contains "/" ext = false ->
    PyStr.contains "/" result = false ->
    In (PyStr.path_join (OUTPUT_PREFIX cfg) (String.append stem (String "." result)))
       (listed output_pages) ->
    let found := fst (scan_s3_for_tasks cfg input_pages output_pages logs) in
    ~ In (String.append dir (String "/" (String.append stem (String "." ext)))) found /\
    ~ In (String.append stem (String "." ext)) found.
Proof.
  intros cfg input_pages output_pages logs dir stem ext result
         Hstem Hdot Hext Hres Hout found.
  assert (Hname : forall x,
             PyStr.contains "/" x = false ->
             PyStr.contains "/" (String.append stem (String "." x)) = false).
  { intros x Hx. clear - Hstem Hx. induction stem as [|c r IH].
    - cbn [String.append PyStr.contains String.prefix].
      destruct (ascii_dec "/" "."); [discriminate|]. exact Hx.
    - destruct (contains_char_cons "/" c r Hstem) as [Hc Hr].
      cbn [String.append PyStr.contains String.prefix].
      destruct (ascii_dec "/" c) as [<-|_]; [discriminate Hc | now apply IH]. }
  assert (Hprocessed : forall key,
             numeric_prefix (base_name_of key) = stem ->
             ~ In key found).
  { intros key Hkey Hin.
    subst found.
    pose proof (filter_processed_filter
                  (input_pages_keys input_pages [])
                  (list_processed_file_numbers output_pages) []) as Hf.
    unfold scan_s3_for_tasks in Hin. rewrite Hf in Hin. cbn [app] in Hin.
    apply filter_In in Hin. destruct Hin as [_ Hfresh].
    apply negb_true_iff in Hfresh.
    apply not_true_iff_false in Hfresh. apply Hfresh. apply mem_str.
    unfold list_processed_file_numbers. apply processed_in_pages_in. right.
    exists (PyStr.path_join (OUTPUT_PREFIX cfg) (String.append stem (String "." result))).
    rewrite (base_name_joined _ _ (Hname result Hres)).
    split; [exact Hout|]. split.
    - destruct stem; discriminate.
    - now rewrite numeric_prefix_stem, Hkey. }
  split; apply Hprocessed.
  - rewrite (proj1 (base_name_under dir _ (Hname ext Hext))).
    now apply numeric_prefix_stem.
  - rewrite (proj2 (base_name_under EmptyString _ (Hname ext Hext))).
    now apply numeric_prefix_stem.
Qed.

Lemma processed_inputs_are_skipped_witness :
  ~ In "inputs/00009.jpg"
       (fst (scan_s3_for_tasks cfg0
               [Some ["inputs/"; "inputs/00009.jpg"; "inputs/00010.jpg"]]
               [Some ["processed/00009.seg_classes.ODS5.png"]] [])).
Proof.
  apply (processed_inputs_are_skipped cfg0
           [Some ["inputs/"; "inputs/00009.jpg"; "inputs/00010.jpg"]]
           [Some ["processed/00009.seg_classes.ODS5.png"]] []
           "inputs" "00009" "jpg" "seg_classes.ODS5.png"
           eq_refl eq_refl eq_refl eq_refl).
  left. reflexivity.
Defined.

(** * The worker agent *)

(** ** Segmentation *)

(** X17. [run_segmentation] never reports a failure: whatever the two
    docker commands do, it returns success with an empty message, because
    [exec_in_container] swallows the [CalledProcessError] that
    [run_segmentation] means to catch.  The script itself is run exactly
    when making it executable succeeded. *)
Theorem run_segmentation_never_fails :
  forall w,
    let chmod := "docker exec rgo_container chmod +x /app/run_segmentation.sh" in
    let script :=
      "docker exec rgo_container /app/run_segmentation.sh /app/Inputs /app/Outputs" in
    fst (Agent.run_segmentation w) = (true, EmptyString) /\
    snd (Agent.run_segmentation w)
    = match Agent.shell w chmod with
      | None => [Agent.Run chmod; Agent.Run script]
      | Some _ => [Agent.Run chmod]
      end.
Proof.
  intros w chmod script.
  unfold Agent.run_segmentation, Agent.exec_in_container, Agent.subprocess_run.
  cbn [fold_left String.append]. fold chmod. fold script.
  destruct (Agent.shell w chmod) as [e1|].
  - split; reflexivity.
  - destruct (Agent.shell w script) as [e2|]; split; reflexivity.
Qed.

(** ** Transfers *)

Lemma download_files_ok : forall w file_names bucket,
  fst (fst (Agent.download_files w file_names bucket)) = true <->
  Forall (fun key =>
            Agent.download_file w bucket key
              (PyStr.path_join Agent.LOCAL_INPUT_DIR (PyStr.basename key)) = None)
         file_names.
Proof.
  intros w file_names bucket. induction file_names as [|key rest IH];
    cbn [Agent.download_files].
  - split; [constructor | reflexivity].
  - destruct (Agent.download_file w bucket key _) as [e|] eqn:E.
    + cbn [fst]. split; [discriminate|]. intros H. inversion H. congruence.
    + destruct (Agent.download_files w rest bucket) as [[ok msg] trace].
      cbn [fst] in *. rewrite IH. split.
      * intros H. constructor; assumption.
      * intros H. now inversion H.
Qed.

(** X18. [download_files] succeeds exactly when every listed key
    downloads.  Otherwise it stops at the first key whose download raises:
    the keys before it were fetched, that key was tried, no later key is
    touched, and the message names the key, the bucket and the error. *)
Theorem download_files_stops_at_first_failure :
  forall w file_names bucket,
    let local key := PyStr.path_join Agent.LOCAL_INPUT_DIR (PyStr.basename key) in
    (fst (fst (Agent.download_files w file_names bucket)) = true <->
     Forall (fun key => Agent.download_file w bucket key (local key) = None)
            file_names) /\
    (forall done key rest e,
        file_names = done ++ key :: rest ->
        Forall (fun key => Agent.download_file w bucket key (local key) = None)
               done ->
        Agent.download_file w bucket key (local key) = Some e ->
        Agent.download_files w file_names bucket
        = ((false,
            String.append "Error downloading "
              (String.append key
                 (String.append " from bucket "
                    (String.append bucket (String.append ": " e))))),
           map (fun key => Agent.Download bucket key (local key))
               (done ++ [key]))).
Proof.
  intros w file_names bucket local. split; [apply download_files_ok|].
  intros done. revert file_names.
  induction done as [|k done IH]; intros file_names key rest e -> Hdone Hfail;
    cbn [app Agent.download_files].
  - fold (local key). rewrite Hfail. reflexivity.
  - inversion Hdone as [|? ? Hk Hrest]; subst. fold (local k). rewrite Hk.
    rewrite (IH _ key rest e eq_refl Hrest Hfail). reflexivity.
Qed.

Lemma download_files_stops_at_first_failure_witness :
  snd (Agent.download_files harsh_world ["in/1.jpg"; "in/2.jpg"; "in/3.jpg"] "b")
  = [Agent.Download "b" "in/1.jpg" "/tmp/input_files/1.jpg";
     Agent.Download "b" "in/2.jpg" "/tmp/input_files/2.jpg"].
Proof.
  destruct (download_files_stops_at_first_failure
              harsh_world ["in/1.jpg"; "in/2.jpg"; "in/3.jpg"] "b") as [_ H].
  rewrite (H ["in/1.jpg"] "in/2.jpg" ["in/3.jpg"] "denied").
  - reflexivity.
  - reflexivity.
  - constructor; [reflexivity | constructor].
  - reflexivity.
Defined.

(** ** Processing a batch *)

Lemma run_segmentation_result : forall w,
  fst (Agent.run_segmentation w) = (true, EmptyString) /\
  forall a, In a (snd (Agent.run_segmentation w)) -> exists cmd, a = Agent.Run cmd.
Proof.
  intros w.
  unfold Agent.run_segmentation, Agent.exec_in_container, Agent.subprocess_run.
  destruct (Agent.shell w _) as [e1|]; [|destruct (Agent.shell w _) as [e2|]];
    (split; [reflexivity|]); cbn [snd app];
    intros a Hin; repeat (destruct Hin as [<-|Hin]; [eauto|]); contradiction.
Qed.

Lemma download_files_trace : forall w file_names bucket a,
  In a (snd (Agent.download_files w file_names bucket)) ->
  exists key path, a = Agent.Download bucket key path.
Proof.
  intros w file_names bucket a. induction file_names as [|key rest IH];
    cbn [Agent.download_files].
  - intros [].
  - destruct (Agent.download_file w bucket key _) as [e|].
    + intros [<-|[]]. eauto.
    + destruct (Agent.download_files w rest bucket) as [r trace].
      cbn [snd] in *. intros [<-|Hin]; eauto.
Qed.

Lemma upload_files_ok : forall w root files ob op,
  (fst (Agent.upload_files w root files ob op) = None <->
   Forall (fun file =>
             Agent.upload_file w (PyStr.path_join root file) ob
                               (PyStr.path_join op file) = None) files) /\
  (forall r, fst (Agent.upload_files w root files ob op) = Some r ->
             fst r = false) /\
  (forall a, In a (snd (Agent.upload_files w root files ob op)) ->
             exists f b k, a = Agent.Upload f b k).
Proof.
  intros w root files ob op. induction files as [|file rest IH];
    cbn [Agent.upload_files].
  - repeat split; try constructor; try discriminate. intros a [].
  - destruct (Agent.upload_file w _ ob _) as [e|] eqn:E.
    + cbn [fst snd]. repeat split.
      * discriminate.
      * intros H. inversion H. congruence.
      * intros r [= <-]. reflexivity.
      * intros a [<-|[]]. eauto.
    + destruct (Agent.upload_files w root rest ob op) as [r trace].
      cbn [fst snd] in *. destruct IH as (IH1 & IH2 & IH3). repeat split.
      * intros H. constructor; [exact E | now apply IH1].
      * intros H. apply IH1. now inversion H.
      * exact IH2.
      * intros a [<-|Hin]; eauto.
Qed.

Lemma upload_dirs_ok : forall w dirs ob op,
  (fst (fst (Agent.upload_dirs w dirs ob op)) = true <->
   Forall (fun d =>
             Forall (fun file =>
                       Agent.upload_file w (PyStr.path_join (fst d) file) ob
                                         (PyStr.path_join op file) = None)
                    (snd d)) dirs) /\
  (forall a, In a (snd (Agent.upload_dirs w dirs ob op)) ->
             exists f b k, a = Agent.Upload f b k).
Proof.
  intros w dirs ob op. induction dirs as [|[root files] rest IH];
    cbn [Agent.upload_dirs].
  - split; [split; [constructor | reflexivity] | intros a []].
  - destruct (upload_files_ok w root files ob op) as (H1 & H2 & H3).
    destruct (Agent.upload_files w root files ob op) as [[r|] trace];
      cbn [fst snd] in *.
    + split; [|exact H3]. rewrite (H2 r eq_refl). split; [discriminate|].
      intros H. inversion H as [|? ? Hd _]; subst. cbn [fst snd] in Hd.
      apply H1 in Hd. discriminate.
    + destruct (Agent.upload_dirs w rest ob op) as [r2 trace2].
      cbn [fst snd] in *. destruct IH as [IH1 IH2]. split.
      * rewrite IH1. split.
        -- intros H. constructor; [now apply H1 | exact H].
        -- intros H. now inversion H.
      * intros a Hin. apply in_app_or in Hin. destruct Hin; auto.
Qed.

(** X19. [process_files] reports success exactly when every download and
    every upload goes through; how the docker commands end never enters
    into it, so a batch whose segmentation script failed counts as
    processed.  The local directories are cleared exactly when it reports
    success, and the message is then empty. *)
Theorem process_files_outcome :
  forall w file_names input_bucket output_bucket output_prefix,
    let result :=
      Agent.process_files w file_names input_bucket output_bucket output_prefix in
    let downloads_ok :=
      Forall (fun key =>
                Agent.download_file w input_bucket key
                  (PyStr.path_join Agent.LOCAL_INPUT_DIR (PyStr.basename key))
                = None) file_names in
    let uploads_ok :=
      Forall (fun d =>
                Forall (fun file =>
                          Agent.upload_file w (PyStr.path_join (fst d) file)
                            output_bucket (PyStr.path_join output_prefix file)
                          = None) (snd d)) (Agent.walk_output w) in
    (fst (fst result) = true <-> downloads_ok /\ uploads_ok) /\
    (In Agent.ClearLocalDirectories (snd result) <-> fst (fst result) = true) /\
    (fst (fst result) = true -> snd (fst result) = EmptyString).
Proof.
  intros w file_names ib ob op result downloads_ok uploads_ok.
  subst result downloads_ok uploads_ok. unfold Agent.process_files.
  pose proof (download_files_ok w file_names ib) as Hd.
  pose proof (download_files_trace w file_names ib) as Hdt.
  destruct (Agent.download_files w file_names ib) as [[ok1 msg1] trace1].
  cbn [fst snd] in Hd, Hdt.
  destruct (run_segmentation_result w) as [Hs Hst].
  destruct (Agent.run_segmentation w) as [[ok2 msg2] trace2].
  cbn [fst snd] in Hs, Hst. injection Hs as -> ->.
  unfold Agent.upload_results.
  destruct (upload_dirs_ok w (Agent.walk_output w) ob op) as [Hu Hut].
  destruct (Agent.upload_dirs w (Agent.walk_output w) ob op)
    as [[ok3 msg3] trace3]. cbn [fst snd] in Hu, Hut.
  assert (Hno : forall tr,
             (forall a, In a tr -> (exists k p, a = Agent.Download ib k p)
                                   \/ (exists c, a = Agent.Run c)
                                   \/ (exists f b k, a = Agent.Upload f b k)) ->
             ~ In Agent.ClearLocalDirectories tr).
  { intros tr H Hin.
    destruct (H _ Hin) as [(k & p & E)|[(c & E)|(f & b & k & E)]]; discriminate. }
  destruct ok1; cbn [negb fst snd].
  - destruct ok3; cbn [negb fst snd].
    + split; [rewrite <- Hd, <- Hu; tauto|]. split; [|reflexivity].
      split; [reflexivity|]. intros _. rewrite !in_app_iff. simpl. auto.
    + split; [rewrite <- Hu; split; [discriminate | intros [_ H]; exact H]|].
      split; [|discriminate]. split; [|discriminate]. intros Hin. exfalso.
      apply (Hno _) in Hin; [exact Hin|]. intros a Ha.
      rewrite !in_app_iff in Ha. destruct Ha as [Ha|[Ha|Ha]]; eauto.
  - split; [rewrite <- Hd; split; [discriminate | intros [H _]; exact H]|].
    split; [|discriminate]. split; [|discriminate]. intros Hin. exfalso.
    apply (Hno _) in Hin; [exact Hin|]. intros a Ha. eauto.
Qed.

(** ** One turn of the agent against the scheduler *)

Lemma requests_do : forall trace rest,
  Agent.requests (map Agent.Do trace ++ rest) = Agent.requests rest.
Proof.
  intros trace rest. induction trace as [|a trace IH]; [reflexivity|].
  cbn [map app Agent.requests]. exact IH.
Qed.







(** ** The last turn of an agent *)

Lemma dict_set_twice : forall wid w1 w2 w0 ws,
  dict_get wid ws = Some w0 ->
  dict_set wid w2 (dict_set wid w1 ws) = dict_set wid w2 ws.
Proof.
  intros wid w1 w2 w0 ws. induction ws as [|[k x] rest IH];
    cbn [dict_get dict_set]; intros H.
  - discriminate.
  - destruct (String.eqb k wid) eqn:E; cbn [dict_set]; rewrite E.
    + reflexivity.
    + now rewrite IH.
Qed.

Lemma dict_set_in_nodup : forall wid w' ws k x,
  NoDup (map fst ws) ->
  In (k, x) (dict_set wid w' ws) ->
  (k = wid /\ x = w') \/ (k <> wid /\ In (k, x) ws).
Proof.
  intros wid w' ws k x. induction ws as [|[k0 w0] rest IH];
    cbn [dict_set map fst]; intros Hnd Hin.
  - destruct Hin as [[= <- <-]|[]]. auto.
  - inversion Hnd as [|? ? Hnotin Hnd']; subst.
    destruct (String.eqb k0 wid) eqn:E.
    + apply String.eqb_eq in E. subst k0. destruct Hin as [[= <- <-]|Hin]; [auto|].
      right. split; [|now right]. intros ->. apply Hnotin.
      now apply (in_map fst) in Hin.
    + apply String.eqb_neq in E. destruct Hin as [[= <- <-]|Hin].
      * right. split; [exact E | now left].
      * destruct (IH Hnd' Hin) as [H|[H1 H2]]; [auto|]. right. split; [exact H1 | now right].
Qed.

Lemma shutting_down_record : forall wid req now st w a,
  dict_get wid (workers st) = Some w ->
  assignment w = Some a ->
  status_of_request req = "shutting-down" ->
  fst (update_status wid req now st)
  = mkState (tasks st)
      (dict_set wid
         (released w "shutting-down"
            (mkEvent "shutting-down" (details_of_request req) now))
         (workers st))
      (app_logs st).
Proof.
  intros wid req now st w a Hget Ha Hs. unfold update_status.
  now rewrite Hget, Ha, Hs.
Qed.

Lemma shutting_down_again_record : forall wid req now st w,
  dict_get wid (workers st) = Some w ->
  assignment w = None ->
  status_of_request req = "shutting-down" ->
  fst (update_status wid req now st)
  = mkState (tasks st)
      (dict_set wid
         (restatus w "shutting-down"
            (mkEvent "shutting-down" (details_of_request req) now))
         (workers st))
      (app_logs st).
Proof.
  intros wid req now st w Hget Ha Hs. unfold update_status.
  now rewrite Hget, Ha, Hs.
Qed.

(** X21. The last turn of an agent.  When a registered worker without an
    assignment polls an empty pool, it is handed the shutdown directive and
    the agent reports shutting-down twice (once from the loop, once from
    its shutdown sequence) and exits.  The scheduler then has the worker
    with status shutting-down and no assignment, and the pool is still
    empty; if the registered ids are distinct and every other worker
    already has status shutting-down, the registry is drained, so the next
    pass of the drain check fires. *)
Theorem agent_turn_shutdown :
  forall cfg to_json w wid now sys w0,
    dict_get wid (workers (sys_state sys)) = Some w0 ->
    assignment w0 = None ->
    tasks (sys_state sys) = [] ->
    let sys' := fst (agent_turn cfg to_json w wid now sys) in
    snd (agent_turn cfg to_json w wid now sys) = true /\
    tasks (sys_state sys') = [] /\
    (exists w',
        dict_get wid (workers (sys_state sys')) = Some w' /\
        status w' = "shutting-down" /\
        assignment w' = None /\
        map ev_status (history w')
        = map ev_status (history w0)
          ++ ["shutdown"; "shutting-down"; "shutting-down"]) /\
    (NoDup (map fst (workers (sys_state sys))) ->
     (forall wid' w1, In (wid', w1) (workers (sys_state sys)) ->
                      wid' <> wid -> status w1 = "shutting-down") ->
     drained (workers (sys_state sys'))).
Proof.
  intros cfg to_json w wid now sys w0 Hget Ha Hempty sys'.
  set (ws := workers (sys_state sys)) in *.
  set (w1 := {| status := "shutdown"; details := details w0;
                assignment := Some ShutdownDirective;
                assignment_timestamp := assignment_timestamp w0;
                processing_start := processing_start w0;
                history := history w0
                  ++ [mkEvent "shutdown" (DetailsAssignment ShutdownDirective) now] |}).
  set (st1 := mkState [] (dict_set wid w1 ws) (app_logs (sys_state sys))).
  assert (Hpoll : get_assignment cfg wid now now (sys_state sys)
                  = (st1, RespAssignment ShutdownDirective)).
  { unfold get_assignment. fold ws. rewrite Hget, Ha, Hempty. reflexivity. }
  set (r1 := mkStatusRequest (Some "shutting-down")
               (Some (to_json (Agent.Reason "Received shutdown command")))).
  set (r2 := mkStatusRequest (Some "shutting-down")
               (Some (to_json (Agent.Reason
                                 (String.append "Received signal " (Py.str_nat 0)))))).
  assert (Hturn : agent_turn cfg to_json w wid now sys
                  = (with_state sys
                       (fst (update_status wid r2 now
                               (fst (update_status wid r1 now st1)))),
                     true)).
  { unfold agent_turn, step. rewrite Hpoll. cbn [fst snd polled_assignment].
    unfold Agent.main_iteration, Agent.shutdown_instance.
    cbn [Agent.is_shutdown negb snd Agent.requests]. rewrite requests_do.
    reflexivity. }
  set (w2 := released w1 "shutting-down"
               (mkEvent "shutting-down" (details_of_request r1) now)).
  set (w3 := restatus w2 "shutting-down"
               (mkEvent "shutting-down" (details_of_request r2) now)).
  assert (Hfinal : fst (update_status wid r2 now (fst (update_status wid r1 now st1)))
                   = mkState [] (dict_set wid w3 ws) (app_logs (sys_state sys))).
  { assert (H1 : fst (update_status wid r1 now st1)
                 = mkState [] (dict_set wid w2 (workers st1))
                           (app_logs (sys_state sys))).
    { apply (shutting_down_record wid r1 now st1 w1 ShutdownDirective);
        [apply dict_get_set_same | reflexivity | reflexivity]. }
    rewrite H1.
    rewrite (shutting_down_again_record wid r2 now
               (mkState [] (dict_set wid w2 (workers st1))
                        (app_logs (sys_state sys))) w2);
      [|apply dict_get_set_same | reflexivity | reflexivity].
    cbn [tasks workers app_logs st1]. fold w3.
    rewrite !(dict_set_twice wid _ _ w0 ws Hget). reflexivity. }
  subst sys'. rewrite Hturn. cbn [fst snd with_state sys_state]. rewrite Hfinal.
  cbn [tasks workers]. split; [reflexivity|]. split; [reflexivity|]. split.
  - exists w3. rewrite dict_get_set_same. repeat split.
    subst w3 w2 w1. unfold restatus, released. cbn [history].
    rewrite !map_app, <- !app_assoc. reflexivity.
  - intros Hnd Hothers. split.
    + intros Hnil. pose proof (dict_get_set_same wid w3 ws) as H.
      rewrite Hnil in H. discriminate.
    + intros k x Hin.
      destruct (dict_set_in_nodup wid w3 ws k x Hnd Hin) as [[-> ->]|[Hk Hin']].
      * reflexivity.
      * exact (Hothers k x Hin' Hk).
Qed.

Lemma agent_turn_shutdown_witness :
  snd (agent_turn cfg0 no_json calm_world "w1" 100 idle_system) = true /\
  drained (workers (sys_state (fst (agent_turn cfg0 no_json calm_world "w1" 100
                                      idle_system)))).
Proof.
  destruct (agent_turn_shutdown cfg0 no_json calm_world "w1" 100 idle_system _
              eq_refl eq_refl eq_refl) as (H1 & _ & _ & H4).
  split; [exact H1|]. apply H4.
  - repeat constructor. intros [].
  - intros wid' w1 [[= <- <-]|[]] Hne. congruence.
Defined.

(** ** Starting the container *)

Lemma run_all_spec : forall w cmds,
  match Agent.run_all w cmds with
  | (Agent.Returns _, trace) =>
      trace = map Agent.Run cmds /\
      Forall (fun cmd => Agent.shell w cmd = None) cmds
  | (Agent.Raises e, trace) =>
      exists done cmd rest,
        cmds = done ++ cmd :: rest /\
        Forall (fun cmd => Agent.shell w cmd = None) done /\
        Agent.shell w cmd = Some e /\
        trace = map Agent.Run (done ++ [cmd])
  end.
Proof.
  intros w cmds. induction cmds as [|cmd rest IH]; cbn [Agent.run_all].
  - split; [reflexivity | constructor].
  - unfold Agent.subprocess_run. destruct (Agent.shell w cmd) as [e|] eqn:E.
    + exists [], cmd, rest. repeat split; [constructor | exact E].
    + destruct (Agent.run_all w rest) as [[u|e] trace].
      * destruct IH as [-> Hall]. split; [reflexivity|]. now constructor.
      * destruct IH as (done & c & rest' & -> & Hdone & Hc & ->).
        exists (cmd :: done), c, rest'. repeat split; try assumption.
        now constructor.
Qed.

(** X22. [docker_pull_and_mount] works through its commands in order
    (pull, list containers, stop and remove a container of that name if the
    listing printed one, run) and stops at the first one that fails.  It
    returns true exactly when all of them exited with status 0, having run
    them all; when it returns false, the commands it ran are those up to
    and including the first failing one. *)
Theorem docker_pull_and_mount_stops_at_first_failure :
  forall w stdout mount_dict container_name image_name,
    let pull := String.append "docker pull " image_name in
    let ps := String.append "docker ps -aqf "
                (String.append Agent.quote
                   (String.append "name="
                      (String.append container_name Agent.quote))) in
    let cleanup :=
      if (String.length (Agent.strip (stdout ps)) =? 0)%nat then []
      else [String.append "docker stop " container_name;
            String.append "docker rm " container_name] in
    let run :=
      String.append
        (fold_left
           (fun cmd kv =>
              String.append cmd
                (String.append " -v "
                   (String.append (snd kv) (String.append ":" (fst kv)))))
           mount_dict
           (String.append "docker run --gpus all -d --name " container_name))
        (String.append " -it " image_name) in
    let plan := [pull; ps] ++ cleanup ++ [run] in
    let result :=
      Agent.docker_pull_and_mount w stdout mount_dict container_name image_name in
    (fst result = true ->
     snd result = map Agent.Run plan /\
     Forall (fun cmd => Agent.shell w cmd = None) plan) /\
    (fst result = false ->
     exists done cmd rest e,
       plan = done ++ cmd :: rest /\
       Forall (fun cmd => Agent.shell w cmd = None) done /\
       Agent.shell w cmd = Some e /\
       snd result = map Agent.Run (done ++ [cmd])).
Proof.
  intros w stdout mount_dict container_name image_name pull ps cleanup run plan
         result.
  assert (Hresult :
            result
            = match Agent.run_all w [pull; ps] with
              | (Agent.Raises e, trace) => (false, trace)
              | (Agent.Returns _, trace1) =>
                  match Agent.run_all w (cleanup ++ [run]) with
                  | (Agent.Returns _, trace2) => (true, trace1 ++ trace2)
                  | (Agent.Raises _, trace2) => (false, trace1 ++ trace2)
                  end
              end).
  { subst result. unfold Agent.docker_pull_and_mount.
    fold pull. fold ps. subst cleanup.
    destruct (String.length (Agent.strip (stdout ps)) =? 0)%nat; cbn [negb];
      fold run;
      destruct (Agent.run_all w [pull; ps]) as [[u|e] trace1]; try reflexivity;
      match goal with
      | |- context [Agent.run_all w ?l] =>
          destruct (Agent.run_all w l) as [[u2|e2] trace2]; reflexivity
      end. }
  rewrite Hresult.
  pose proof (run_all_spec w [pull; ps]) as H1.
  pose proof (run_all_spec w (cleanup ++ [run])) as H2.
  destruct (Agent.run_all w [pull; ps]) as [[u|e] trace1].
  - destruct H1 as [-> Hall1].
    destruct (Agent.run_all w (cleanup ++ [run])) as [[u2|e2] trace2];
      cbn [fst snd].
    + destruct H2 as [-> Hall2]. split; [|discriminate]. intros _.
      subst plan. split; [symmetry; apply map_app | apply Forall_app; now split].
    + destruct H2 as (done & c & rest & Hsplit & Hdone & Hc & ->).
      split; [discriminate|]. intros _.
      exists ([pull; ps] ++ done), c, rest, e2. subst plan. rewrite Hsplit.
      split; [now rewrite <- app_assoc|].
      split; [apply Forall_app; now split|].
      split; [exact Hc|].
      rewrite <- app_assoc. symmetry. apply map_app.
  - destruct H1 as (done & c & rest & Hsplit & Hdone & Hc & ->).
    cbn [fst snd]. split; [discriminate|]. intros _.
    exists done, c, (rest ++ cleanup ++ [run]), e. subst plan.
    rewrite Hsplit, <- app_assoc. repeat split; assumption.
Qed.

Lemma docker_pull_and_mount_stops_at_first_failure_witness :
  exists done cmd e,
    Agent.shell harsh_world cmd = Some e /\
    snd (Agent.start_docker_container harsh_world (fun _ => EmptyString))
    = map Agent.Run (done ++ [cmd]).
Proof.
  destruct (proj2 (docker_pull_and_mount_stops_at_first_failure
                     harsh_world (fun _ => EmptyString)
                     [("/app/Inputs", Agent.LOCAL_INPUT_DIR);
                      ("/app/Outputs", Agent.LOCAL_OUTPUT_DIR)]
                     "rgo_container" "rgodocker/rgo_seg:latest") eq_refl)
    as (done & cmd & rest & e & Hplan & Hdone & Hcmd & Htrace).
  exists done, cmd, e. split; [exact Hcmd | exact Htrace].
Defined.

(** ** An agent whose container does not start *)



